(** * Song Pengsawang API (src/main.py): the degraded-availability document
      access layer, as a shallow embedding.

    The handlers of [main.py] are embedded as computations in a state and
    exception monad [M] over a [World]: the outcome of
    [from database import ...], the document store behind [db], the wall
    clock read by [datetime.now], and the list of calls that reached the
    database helpers. *)

From stdpp Require Import gmap strings list pretty.
From Stdlib Require Import QArith Ascii.

#[local] Set Warnings "-register-all".
Open Scope string_scope.
Open Scope list_scope.
Open Scope Z_scope.

(** ** Values and documents *)

(** [datetime]: an instant in UTC, in microseconds since the epoch. *)
Definition datetime : Type := Z.

(** The values held by the documents of this application: Python / BSON
    [None], [int], [float], [str], [datetime], [list] and the store's
    [ObjectId]. A Python [float] is represented by a rational. *)
Inductive value : Type :=
  | VNone
  | VInt (z : Z)
  | VFloat (q : Q)
  | VStr (s : string)
  | VDatetime (t : datetime)
  | VList (l : list value)
  | VObjectId (hex : string).

(** A document is a Python [dict] with string keys. *)
Abbreviation doc := (gmap string value).

(** Python truthiness, as used by [if d.get("_id")]. *)
Definition truthy (v : value) : bool :=
  match v with
  | VNone => false
  | VInt z => negb (z =? 0)
  | VFloat q => negb (Qeq_bool q 0)
  | VStr s => negb (String.eqb s "")
  | VDatetime _ => true
  | VList l => match l with [] => false | _ => true end
  | VObjectId _ => true
  end.

Fixpoint value_eqb (a b : value) : bool :=
  match a, b with
  | VNone, VNone => true
  | VInt x, VInt y => x =? y
  | VFloat x, VFloat y => Qeq_bool x y
  | VStr x, VStr y => String.eqb x y
  | VDatetime x, VDatetime y => x =? y
  | VList xs, VList ys =>
      (fix go (xs ys : list value) : bool :=
         match xs, ys with
         | [], [] => true
         | x :: xs', y :: ys' => value_eqb x y && go xs' ys'
         | _, _ => false
         end) xs ys
  | VObjectId x, VObjectId y => String.eqb x y
  | _, _ => false
  end.

(** ** Exceptions *)

(** The exceptions that occur: the plain [Exception] of the stubs of lines
    13-16, the two store failures of the database helpers, pydantic's
    [ValidationError] (with the offending fields), Python's [TypeError] for a
    repeated keyword argument, and FastAPI's [HTTPException]. All of them
    are subclasses of [Exception], so [except Exception] catches each. *)
Inductive exn : Type :=
  | Exception (msg : string)
  | StoreUnavailable
  | StoreError (msg : string)
  | ValidationError (fields : list string)
  | TypeError (msg : string)
  | HTTPException (status_code : Z) (detail : string).

Inductive result (A : Type) : Type :=
  | Ok (a : A)
  | Raise (e : exn).
Arguments Ok {A} a.
Arguments Raise {A} e.

(** ** The document store *)

(** An index specification: the list of (field, direction) pairs. *)
Definition index_keys : Type := list (string * Z).

(** The store behind [db]: its collections (documents in insertion order),
    its indexes, the counter from which identifiers are drawn, and a fault
    plan: [faults k = Some msg] makes the [k]-th operation on the store
    raise an error with message [msg]; [ops] counts the operations so far. *)
Record Store : Type := mkStore {
  collections : gmap string (list doc);
  indexes : list (string * index_keys);
  next_oid : nat;
  faults : nat → option string;
  ops : nat
}.

Definition collection (s : Store) (c : string) : list doc :=
  default [] (collections s !! c).

(** Outcome of [from database import db, create_document, get_documents]
    (lines 9-16): the import failed and the stubs are in place, or it
    succeeded and [db] is [None] (unconfigured) or a connected store. *)
Inductive Database : Type :=
  | ImportFailed
  | Imported (handle : option Store).

(** A call that reached the store or one of the database helpers. *)
Inductive Call : Type :=
  | CallCreateIndex (c : string) (keys : index_keys)
  | CallCountDocuments (c : string) (filter : doc)
  | CallCreateDocument (c : string) (d : doc)
  | CallGetDocuments (c : string) (filter : option doc) (limit : option Z).

(** ** The world and the monad *)

Record World : Type := mkWorld {
  database : Database;
  module_loaded_at : datetime;  (* the instant [main.py] was imported *)
  clock : nat → datetime;       (* the k-th reading of the wall clock *)
  reads : nat;                  (* readings taken so far *)
  calls : list Call             (* calls made so far, oldest first *)
}.

(** The module-level name [db]. *)
Definition db (w : World) : option Store :=
  match database w with
  | ImportFailed => None
  | Imported h => h
  end.

Definition set_store (s : Store) (w : World) : World :=
  mkWorld (Imported (Some s)) (module_loaded_at w) (clock w) (reads w) (calls w).

Definition log_call (c : Call) (w : World) : World :=
  mkWorld (database w) (module_loaded_at w) (clock w) (reads w) (calls w ++ [c]).

Definition M (A : Type) : Type := World → result A * World.

Definition ret {A} (a : A) : M A := λ w, (Ok a, w).
Definition raise {A} (e : exn) : M A := λ w, (Raise e, w).
Definition bind {A B} (m : M A) (k : A → M B) : M B :=
  λ w, match m w with
       | (Ok a, w') => k a w'
       | (Raise e, w') => (Raise e, w')
       end.

(** [try: body / except Exception as e: handler e]. The effects of the body
    up to the exception persist. *)
Definition try_except {A} (body : M A) (handler : exn → M A) : M A :=
  λ w, match body w with
       | (Ok a, w') => (Ok a, w')
       | (Raise e, w') => handler e w'
       end.

Declare Scope py_scope.
Delimit Scope py_scope with py.
Notation "x <- m ;; k" := (bind m (λ x, k))
  (at level 100, m at next level, right associativity) : py_scope.
Notation "m ;;; k" := (bind m (λ _, k))
  (at level 100, right associativity) : py_scope.
Open Scope py_scope.

(** [datetime.now(timezone.utc)] *)
Definition datetime_now : M datetime :=
  λ w, (Ok (clock w (reads w)),
        mkWorld (database w) (module_loaded_at w) (clock w) (S (reads w)) (calls w)).

Definition call (c : Call) : M unit := λ w, (Ok tt, log_call c w).

(** ** Operations of the store driver (pymongo) on [db] *)

Definition store_tick (s : Store) : Store :=
  mkStore (collections s) (indexes s) (next_oid s) (faults s) (S (ops s)).

(** One operation on [db]: it raises when the fault plan says so, and
    otherwise runs [f] on the store. On [None], [db[...]] is a [TypeError]. *)
Definition store_op {A} (f : Store → A * Store) : M A :=
  λ w, match db w with
       | None => (Raise (TypeError "'NoneType' object is not subscriptable"), w)
       | Some s =>
           match faults s (ops s) with
           | Some msg => (Raise (StoreError msg), set_store (store_tick s) w)
           | None => let '(a, s') := f (store_tick s) in (Ok a, set_store s' w)
           end
       end.

(** A document matches a filter when it has every pair of the filter; the
    empty filter matches every document. *)
Definition matches (filter d : doc) : bool :=
  forallb (λ kv, match d !! kv.1 with
                 | Some v => value_eqb kv.2 v
                 | None => false
                 end) (map_to_list filter).

Definition matching (s : Store) (c : string) (filter : doc) : list doc :=
  List.filter (matches filter) (collection s c).

(** [db[c].create_index(keys)]: idempotent. *)
Definition add_index (c : string) (keys : index_keys) (s : Store) : unit * Store :=
  (tt, if bool_decide ((c, keys) ∈ indexes s) then s
       else mkStore (collections s) (indexes s ++ [(c, keys)])
                    (next_oid s) (faults s) (ops s)).

Definition create_index (c : string) (keys : index_keys) : M unit :=
  call (CallCreateIndex c keys) ;;; store_op (add_index c keys).

(** [db[c].count_documents(filter)] *)
Definition count_documents (c : string) (filter : doc) : M Z :=
  call (CallCountDocuments c filter) ;;;
  store_op (λ s, (Z.of_nat (length (matching s c filter)), s)).

(** The identifier the store assigns to its [n]-th document. *)
Definition fresh_oid (n : nat) : string := pretty n.

(** Insertion: the store assigns the identifier and keeps the document at
    the end of its collection. *)
Definition insert_one (c : string) (d : doc) (s : Store) : string * Store :=
  let oid := fresh_oid (next_oid s) in
  (oid, mkStore (<[c := collection s c ++ [<["_id" := VObjectId oid]> d]]> (collections s))
                (indexes s) (S (next_oid s)) (faults s) (ops s)).

(** Reading: the matching documents in insertion order, at most [limit] of
    them; none when [limit <= 0]; all of them when no limit is given. *)
Definition find (c : string) (filter : doc) (limit : option Z) (s : Store)
  : list doc * Store :=
  (match limit with
   | None => matching s c filter
   | Some n => if n <=? 0 then [] else take (Z.to_nat n) (matching s c filter)
   end, s).

(** ** The database helpers (lines 9-16) *)

Definition not_configured : string :=
  "Database is not configured. Set DATABASE_URL and DATABASE_NAME.".

(** Modelled from the spec: [database.create_document], whose module is not
    part of the sources (spec 4.3: inserts one record and returns its
    identifier; fails with StoreUnavailable if the handle is unconfigured
    and with StoreError if the underlying insert raises; does not retry).
    When the import failed, the stub of lines 13-14 stands in for it. *)
Definition create_document (c : string) (d : doc) : M string :=
  call (CallCreateDocument c d) ;;;
  λ w, match database w with
       | ImportFailed => raise (Exception not_configured) w
       | Imported None => raise StoreUnavailable w
       | Imported (Some _) => store_op (insert_one c d) w
       end.

(** Modelled from the spec: [database.get_documents], whose module is not
    part of the sources (spec 4.3: reads up to [limit] records matching
    [filter], empty filter = all; [limit <= 0] gives an empty result, not an
    error; fails with StoreUnavailable / StoreError like the insert). The
    ceiling of 50 is applied by the caller (line 152), not here. When the
    import failed, the stub of lines 15-16 stands in for it. *)
Definition get_documents (c : string) (filter : option doc) (limit : option Z)
  : M (list doc) :=
  call (CallGetDocuments c filter limit) ;;;
  λ w, match database w with
       | ImportFailed => raise (Exception not_configured) w
       | Imported None => raise StoreUnavailable w
       | Imported (Some _) => store_op (find c (default ∅ filter) limit) w
       end.

(** ** Pydantic schemas (lines 31-53) *)

(** Field validators. A field holds a value of its declared type, an [int]
    where a [float] is declared, or validation fails; pydantic's conversions
    from strings to numbers and dates are not modelled. *)
Definition as_str (v : value) : option string :=
  match v with VStr s => Some s | _ => None end.
Definition as_int (v : value) : option Z :=
  match v with VInt z => Some z | _ => None end.
Definition as_float (v : value) : option Q :=
  match v with VFloat q => Some q | VInt z => Some (inject_Z z) | _ => None end.
Definition as_datetime (v : value) : option datetime :=
  match v with VDatetime t => Some t | _ => None end.
Definition as_str_list (v : value) : option (list string) :=
  match v with VList l => mapM as_str l | _ => None end.

(** [Field(..., ge=0)] *)
Definition ge0 (z : Z) : option Z := if 0 <=? z then Some z else None.
Definition ge0_float (q : Q) : option Q := if Qle_bool 0 q then Some q else None.

(** [HttpUrl]: scheme http or https, a non-empty host, at most 2083
    characters. *)
Fixpoint url_host (s : string) : string :=
  match s with
  | EmptyString => EmptyString
  | String c s' =>
      if (Ascii.eqb c "/" || Ascii.eqb c "?" || Ascii.eqb c "#")%char
      then EmptyString else String c (url_host s')
  end.

Definition after_scheme (s : string) : option string :=
  if String.prefix "https://" s then Some (String.substring 8 (String.length s - 8) s)
  else if String.prefix "http://" s then Some (String.substring 7 (String.length s - 7) s)
  else None.

Definition is_http_url (s : string) : bool :=
  (String.length s <=? 2083)%nat &&
  match after_scheme s with
  | Some rest => negb (String.eqb (url_host rest) "")
  | None => false
  end.

Definition as_url (v : value) : option string :=
  match v with VStr s => if is_http_url s then Some s else None | _ => None end.

(** [EmailStr]: one [@] between a non-empty local part and a domain that
    contains a dot; no blanks. *)
Definition contains (needle s : string) : bool :=
  match String.index 0 needle s with Some _ => true | None => false end.

Definition is_email (s : string) : bool :=
  match String.index 0 "@" s with
  | None => false
  | Some i =>
      let domain := String.substring (S i) (String.length s - S i) s in
      negb (i =? 0)%nat && negb (contains "@" domain) && contains "." domain
      && negb (String.prefix "." domain) && negb (contains " " s)
  end.

Definition as_email (v : value) : option string :=
  match v with VStr s => if is_email s then Some s else None | _ => None end.

(** [Optional[T]] *)
Definition optional {A} (p : value → option A) (v : value) : option (option A) :=
  match v with VNone => Some None | _ => Some <$> p v end.

(** A required field, a field with a default, and a field with a
    [default_factory], which runs only when the field is absent. [None] is
    a field that failed validation. *)
Definition required {A} (p : value → option A) (kw : doc) (k : string) : option A :=
  kw !! k ≫= p.

Definition with_default {A} (p : value → option A) (dflt : A) (kw : doc) (k : string)
  : option A :=
  match kw !! k with None => Some dflt | Some v => p v end.

Definition with_default_factory {A} (p : value → option A) (factory : M A)
    (kw : doc) (k : string) : M (option A) :=
  match kw !! k with
  | None => a <- factory ;; ret (Some a)
  | Some v => ret (p v)
  end.

Definition invalid {A} (k : string) (r : option A) : list string :=
  match r with Some _ => [] | None => [k] end.

Module Metric.
Record t : Type := mk {
  platform : string;
  followers : Z;
  avg_views : Z;
  engagement_rate : Q;
  last_updated : datetime
}.

(** The constructor of [Metric], called on the keyword arguments [kw]. *)
Definition init (kw : doc) : M t :=
  let platform := required as_str kw "platform" in
  let followers := required (λ v, as_int v ≫= ge0) kw "followers" in
  let avg_views := required (λ v, as_int v ≫= ge0) kw "avg_views" in
  let engagement_rate := required (λ v, as_float v ≫= ge0_float) kw "engagement_rate" in
  last_updated <- with_default_factory as_datetime datetime_now kw "last_updated" ;;
  match platform, followers, avg_views, engagement_rate, last_updated with
  | Some p, Some f, Some a, Some e, Some l => ret (mk p f a e l)
  | _, _, _, _, _ =>
      raise (ValidationError
               (invalid "platform" platform ++ invalid "followers" followers
                ++ invalid "avg_views" avg_views
                ++ invalid "engagement_rate" engagement_rate
                ++ invalid "last_updated" last_updated))
  end.
End Metric.

Module Reel.
Record t : Type := mk {
  id : option string;
  title : string;
  thumbnail_url : string;
  video_url : option string;
  views : Z;
  likes : Z;
  hashtags : list string;
  posted_at : datetime
}.

(** The constructor of [Reel], called on the keyword arguments [kw]. *)
Definition init (kw : doc) : M t :=
  let id := with_default (optional as_str) None kw "id" in
  let title := required as_str kw "title" in
  let thumbnail_url := required as_url kw "thumbnail_url" in
  let video_url := with_default (optional as_url) None kw "video_url" in
  let views := with_default as_int 0 kw "views" in
  let likes := with_default as_int 0 kw "likes" in
  let hashtags := with_default as_str_list [] kw "hashtags" in
  posted_at <- with_default_factory as_datetime datetime_now kw "posted_at" ;;
  match id, title, thumbnail_url, video_url, views, likes, hashtags, posted_at with
  | Some i, Some t, Some th, Some vu, Some vi, Some li, Some h, Some p =>
      ret (mk i t th vu vi li h p)
  | _, _, _, _, _, _, _, _ =>
      raise (ValidationError
               (invalid "id" id ++ invalid "title" title
                ++ invalid "thumbnail_url" thumbnail_url
                ++ invalid "video_url" video_url ++ invalid "views" views
                ++ invalid "likes" likes ++ invalid "hashtags" hashtags
                ++ invalid "posted_at" posted_at))
  end.

(** The call of line 157, with [id=rid] and the keywords of [d]: a key
    [id] in [d] is a repeated keyword. *)
Definition init_with_id (rid : option string) (d : doc) : M t :=
  match d !! "id" with
  | Some _ => raise (TypeError "got multiple values for keyword argument 'id'")
  | None => init (<["id" := from_option VStr VNone rid]> d)
  end.
End Reel.

Module ContactMessage.
Record t : Type := mk {
  name : string;
  email : string;
  company : option string;
  message : string;
  topic : option string
}.

(** The constructor of [ContactMessage], called on the keyword arguments
    [kw]; fields that the model does not declare are ignored. *)
Definition init (kw : doc) : M t :=
  let name := required as_str kw "name" in
  let email := required as_email kw "email" in
  let company := with_default (optional as_str) None kw "company" in
  let message := required as_str kw "message" in
  let topic := with_default (optional as_str) None kw "topic" in
  match name, email, company, message, topic with
  | Some n, Some e, Some c, Some m, Some t => ret (mk n e c m t)
  | _, _, _, _, _ =>
      raise (ValidationError
               (invalid "name" name ++ invalid "email" email
                ++ invalid "company" company ++ invalid "message" message
                ++ invalid "topic" topic))
  end.

(** [payload.model_dump()] *)
Definition model_dump (p : t) : doc :=
  {[ "name" := VStr (name p);
     "email" := VStr (email p);
     "company" := from_option VStr VNone (company p);
     "message" := VStr (message p);
     "topic" := from_option VStr VNone (topic p) ]}.
End ContactMessage.

(** ** Utility (lines 58-109) *)

Definition COL_METRIC : string := "metric".
Definition COL_REEL : string := "reel".
Definition COL_CONTACT : string := "contactmessage".

Definition get_db : M (option Store) := λ w, (Ok (db w), w).

Definition ensure_indexes : M unit :=
  h <- get_db ;;
  match h with
  | None => ret tt
  | Some _ =>
      create_index COL_REEL [("posted_at", 1)] ;;;
      create_index COL_REEL [("views", -1)] ;;;
      create_index COL_CONTACT [("email", 1)]
  end.

(** [SEED_METRICS]: its [last_updated] is the clock reading taken once, when
    the module was imported. *)
Definition SEED_METRICS (loaded_at : datetime) : list doc :=
  [ {[ "platform" := VStr "Instagram";
       "followers" := VInt 1250000;
       "avg_views" := VInt 1500000;
       "engagement_rate" := VFloat (87 # 10);
       "last_updated" := VDatetime loaded_at ]} ].

Definition SEED_REELS : list doc :=
  [ {[ "title" := VStr "Pad work with a twist";
       "thumbnail_url" := VStr "https://images.unsplash.com/photo-1605296867304-46d5465a13f1?q=80&w=1200&auto=format&fit=crop";
       "video_url" := VStr "https://www.example.com/reel1.mp4";
       "views" := VInt 2300000;
       "likes" := VInt 340000;
       "hashtags" := VList [VStr "#muaythai"; VStr "#twerk"; VStr "#funnytraining"] ]};
    {[ "title" := VStr "Elbows, knees & giggles";
       "thumbnail_url" := VStr "https://images.unsplash.com/photo-1544916601-0aa3f82a1f2d?q=80&w=1200&auto=format&fit=crop";
       "video_url" := VStr "https://www.example.com/reel2.mp4";
       "views" := VInt 1800000;
       "likes" := VInt 280000;
       "hashtags" := VList [VStr "#muaythai"; VStr "#reels"; VStr "#songpengsawang"] ]} ].

Definition seed_metrics : M (list doc) :=
  λ w, (Ok (SEED_METRICS (module_loaded_at w)), w).

(** [for x in l: body x] *)
Fixpoint for_each {A} (l : list A) (body : A → M unit) : M unit :=
  match l with
  | [] => ret tt
  | x :: l' => body x ;;; for_each l' body
  end.

(** [[f x for x in l]] *)
Fixpoint comprehension {A B} (f : A → M B) (l : list A) : M (list B) :=
  match l with
  | [] => ret []
  | x :: l' => y <- f x ;; ys <- comprehension f l' ;; ret (y :: ys)
  end.

(** Lines 104-106: the Metric collection is seeded when it is empty. *)
Definition seed_metric_collection : M unit :=
  n <- count_documents COL_METRIC ∅ ;;
  if n =? 0
  then seeds <- seed_metrics ;;
       for_each seeds (λ m, create_document COL_METRIC m ;;; ret tt)
  else ret tt.

(** Lines 107-109: the Reel collection is seeded when it is empty. *)
Definition seed_reel_collection : M unit :=
  n <- count_documents COL_REEL ∅ ;;
  if n =? 0
  then for_each SEED_REELS (λ r, create_document COL_REEL r ;;; ret tt)
  else ret tt.

Definition seed_data : M unit :=
  h <- get_db ;;
  match h with
  | None => ret tt
  | Some _ => seed_metric_collection ;;; seed_reel_collection
  end.

(** [on_startup] (lines 112-119): one [try] around both steps. *)
Definition on_startup : M unit :=
  try_except (ensure_indexes ;;; seed_data) (λ _, ret tt).

(** ** Routes (lines 125-174) *)

(** [l[:k]]: a negative [k] counts from the end. *)
Definition slice_to {A} (k : Z) (l : list A) : list A :=
  if 0 <=? k then take (Z.to_nat k) l
  else take (Z.to_nat (Z.of_nat (length l) + k)) l.

(** [str(e)] for an exception; pydantic's report is abbreviated to the names
    of the fields. *)
Definition exn_str (e : exn) : string :=
  match e with
  | Exception msg => msg
  | StoreUnavailable => ""
  | StoreError msg => msg
  | ValidationError fields => String.concat ", " fields
  | TypeError msg => msg
  | HTTPException code detail => pretty code +:+ ": " +:+ detail
  end.

Module ContactResponse.
(** The JSON object that [submit_contact] returns. *)
Record t : Type := mk { status : string; id : option string }.
End ContactResponse.

Section Routes.
(** Python's [str] on the value found under [_id]. *)
Variable py_str : value → string.

Fixpoint metrics_loop (docs : list doc) (items : list Metric.t)
  : M (list Metric.t) :=
  match docs with
  | [] => ret items
  | d :: docs' =>
      m <- Metric.init (delete "_id" d) ;;
      metrics_loop docs' (items ++ [m])
  end.

Definition metrics_fallback : M (list Metric.t) :=
  seeds <- seed_metrics ;; comprehension Metric.init seeds.

Definition get_metrics : M (list Metric.t) :=
  try_except
    (docs <- get_documents COL_METRIC None None ;; metrics_loop docs [])
    (λ _, metrics_fallback).

Definition reel_id (d : doc) : option string :=
  match d !! "_id" with
  | Some v => if truthy v then Some (py_str v) else None
  | None => None
  end.

Fixpoint reels_loop (docs : list doc) (items : list Reel.t) : M (list Reel.t) :=
  match docs with
  | [] => ret items
  | d :: docs' =>
      r <- Reel.init_with_id (reel_id d) (delete "_id" d) ;;
      reels_loop docs' (items ++ [r])
  end.

Definition reels_fallback (limit : Z) : M (list Reel.t) :=
  rs <- comprehension Reel.init SEED_REELS ;; ret (slice_to limit rs).

Definition get_reels (limit : Z) : M (list Reel.t) :=
  try_except
    (docs <- get_documents COL_REEL (Some ∅) (Some (Z.min limit 50)) ;;
     reels_loop docs [])
    (λ _, reels_fallback limit).

(** [GET /reels] with or without the query parameter: [limit: int = 20]. *)
Definition get_reels_request (limit : option Z) : M (list Reel.t) :=
  get_reels (default 20 limit).

Definition submit_contact (payload : ContactMessage.t) : M ContactResponse.t :=
  let data := ContactMessage.model_dump payload in
  now <- datetime_now ;;
  let data := <["received_at" := VDatetime now]> data in
  try_except
    (h <- get_db ;;
     match h with
     | Some _ =>
         doc_id <- create_document COL_CONTACT data ;;
         ret (ContactResponse.mk "ok" (Some doc_id))
     | None => ret (ContactResponse.mk "ok" None)
     end)
    (λ e, raise (HTTPException 500 (exn_str e))).

(** [POST /contact]: the body is validated into the payload before the
    handler runs; a body that fails validation never reaches it. *)
Definition post_contact (body : doc) : M ContactResponse.t :=
  payload <- ContactMessage.init body ;; submit_contact payload.
End Routes.

(** ** Sample worlds *)

Definition no_faults : nat → option string := λ _, None.

(** The [k]-th operation on the store raises [msg]. *)
Definition fault_at (k : nat) (msg : string) : nat → option string :=
  λ n, if (n =? k)%nat then Some msg else None.

Definition empty_store (f : nat → option string) : Store := mkStore ∅ [] 0 f 0.

Definition store_with (c : string) (docs : list doc) : Store :=
  mkStore {[ c := docs ]} [] (length docs) no_faults 0.

(** A wall clock: its first readings, in microseconds. *)
Definition wall_clock : nat → datetime :=
  λ k, nth k [1700000000000000; 1700000000000017; 1700000000000042;
              1700000000350000; 1700000000350021; 1700000000350040]
             1700000001000000.

Definition world (d : Database) : World :=
  mkWorld d 1699999999000000 wall_clock 0 [].

Definition connected (s : Store) : World := world (Imported (Some s)).

(** [str] on identifiers and strings. *)
Definition id_str (v : value) : string :=
  match v with VObjectId h => h | VStr s => s | _ => "" end.

Definition alice : ContactMessage.t :=
  ContactMessage.mk "Alice" "alice@example.com" None "Hello" (Some "booking").

(** The documents passed to [create_document] among a list of calls. *)
Definition inserts (cs : list Call) : list (string * doc) :=
  omap (λ c, match c with CallCreateDocument col d => Some (col, d) | _ => None end) cs.

(** The record that [submit_contact] hands to the store for [payload] when
    the clock reads [t]. *)
Definition contact_record (payload : ContactMessage.t) (t : datetime) : doc :=
  <["received_at" := VDatetime t]> (ContactMessage.model_dump payload).

(** An error message of 75 characters. *)
Definition outage : string :=
  "connection refused: could not reach any server of the replica set (timeout)".

(** [detail] is a truncated description of [full]: a prefix of it, and not
    the whole of it. *)
Definition truncated (detail full : string) : Prop :=
  String.prefix detail full = true ∧ detail ≠ full.

(** The typed records of the Fallback Catalog: what the constructors make of
    [SEED_METRICS] and [SEED_REELS] when the clock reads [t]. *)
Definition fallback_metric (t : datetime) : Metric.t :=
  Metric.mk "Instagram" 1250000 1500000 (87 # 10) t.

Definition fallback_reel_1 (t : datetime) : Reel.t :=
  Reel.mk None "Pad work with a twist"
    "https://images.unsplash.com/photo-1605296867304-46d5465a13f1?q=80&w=1200&auto=format&fit=crop"
    (Some "https://www.example.com/reel1.mp4") 2300000 340000
    ["#muaythai"; "#twerk"; "#funnytraining"] t.

Definition fallback_reel_2 (t : datetime) : Reel.t :=
  Reel.mk None "Elbows, knees & giggles"
    "https://images.unsplash.com/photo-1544916601-0aa3f82a1f2d?q=80&w=1200&auto=format&fit=crop"
    (Some "https://www.example.com/reel2.mp4") 1800000 280000
    ["#muaythai"; "#reels"; "#songpengsawang"] t.

(** The world after [k] more readings of the clock. *)
Definition after_reads (k : nat) (w : World) : World :=
  mkWorld (database w) (module_loaded_at w) (clock w) (k + reads w) (calls w).

(** Two worlds that differ in clock readings only. *)
Definition same_store (w w' : World) : Prop :=
  database w' = database w ∧ calls w' = calls w
  ∧ module_loaded_at w' = module_loaded_at w.

(** A store that holds 60 copies of the first seed reel. *)
Definition crowded_store : Store :=
  store_with COL_REEL (replicate 60 (default ∅ (head SEED_REELS))).

(** The world after a first startup against an empty, healthy store, and
    its store. *)
Definition seeded_world : World := snd (on_startup (connected (empty_store no_faults))).

Definition seeded_store : Store := default (empty_store no_faults) (db seeded_world).

(** A stored document from which no record can be built: the constructor
    raises [ValidationError] on it, whatever the clock reads. *)
Definition metric_rejected (d : doc) : Prop :=
  ∀ w, ∃ fields, fst (Metric.init (delete "_id" d) w) = Raise (ValidationError fields).

Definition reel_rejected (py_str : value → string) (d : doc) : Prop :=
  ∀ w, ∃ fields,
    fst (Reel.init_with_id (reel_id py_str d) (delete "_id" d) w)
    = Raise (ValidationError fields).

(** A stored metric with a negative [followers], and a stored reel whose
    [thumbnail_url] is not a URL. *)
Definition bad_metric : doc :=
  {[ "_id" := VObjectId "0";
     "platform" := VStr "Instagram";
     "followers" := VInt (-5);
     "avg_views" := VInt 10;
     "engagement_rate" := VFloat (1 # 2) ]}.

Definition bad_reel : doc :=
  {[ "_id" := VObjectId "0";
     "title" := VStr "Broken";
     "thumbnail_url" := VStr "not a url" ]}.

(** The store of a world ([db] when it is not [None]). *)
Definition store_of (w : World) : Store := default (empty_store no_faults) (db w).

(** The calls that count or insert into collection [c]. *)
Definition seeding_calls (c : string) (cs : list Call) : list Call :=
  List.filter (λ k, match k with
                    | CallCountDocuments c' _ | CallCreateDocument c' _ => String.eqb c c'
                    | _ => false
                    end) cs.

(** From [w] to [w'] no document was handed to [create_document] and no
    collection changed. *)
Definition nothing_seeded (w w' : World) : Prop :=
  (collections <$> db w') = (collections <$> db w)
  ∧ inserts (calls w') = inserts (calls w).

(** From [w] to [w'] collection [c] was neither counted nor inserted into,
    and holds the same documents. *)
Definition untouched (c : string) (w w' : World) : Prop :=
  ((λ s, collection s c) <$> db w') = ((λ s, collection s c) <$> db w)
  ∧ seeding_calls c (calls w') = seeding_calls c (calls w).

(** ** The remaining routes (lines 125-131 and 177-209) *)

Module HealthResponse.
Record t : Type := mk { backend : string; database : string }.
End HealthResponse.

Definition health : M HealthResponse.t :=
  h <- get_db ;;
  ret (HealthResponse.mk "ok"
         (match h with Some _ => "connected" | None => "not_configured" end)).

Definition root : M string := ret "Song Pengsawang API running".

Module TestResponse.
Record t : Type := mk {
  backend : string;
  database : string;
  database_url : string;
  database_name : string;
  connection_status : string;
  collections : list string
}.
End TestResponse.

(** [s[:50]], on strings of one-byte characters. *)
Definition first_50 (s : string) : string := String.substring 0 50 s.

(** The names of the collections of the store. *)
Definition collection_names (s : Store) : list string :=
  (map_to_list (collections s)).*1.

(** [_db.list_collection_names()] *)
Definition list_collection_names : M (list string) :=
  store_op (λ s, (collection_names s, s)).

Section TestDatabase.
(** [os.getenv]; the [name] attribute of [db], when it has one; and the
    exception with which [from database import db] fails when it does. *)
Variable getenv : string → option string.
Variable db_name : option string.
Variable import_error : exn.

(** [if os.getenv(k)]: set, and not the empty string. *)
Definition env_set (k : string) : bool :=
  match getenv k with
  | Some v => negb (String.eqb v "")
  | None => false
  end.

(** [from database import db as _db] (line 193) *)
Definition import_db : M (option Store) :=
  λ w, match database w with
       | ImportFailed => (Raise import_error, w)
       | Imported h => (Ok h, w)
       end.

Definition test_database : M TestResponse.t :=
  let response :=
    TestResponse.mk "✅ Running" "❌ Not Available" "❌ Not Set" "❌ Not Set"
                    "Not Connected" [] in
  response <-
    try_except
      (_db <- import_db ;;
       match _db with
       | Some _ =>
           let response :=
             TestResponse.mk (TestResponse.backend response) "✅ Available"
               "✅ Set" (default "✅ Connected" db_name) "Connected"
               (TestResponse.collections response) in
           try_except
             (names <- list_collection_names ;;
              ret (TestResponse.mk (TestResponse.backend response)
                     "✅ Connected & Working"
                     (TestResponse.database_url response)
                     (TestResponse.database_name response)
                     (TestResponse.connection_status response)
                     (take 10 names)))
             (λ e, ret (TestResponse.mk (TestResponse.backend response)
                          ("⚠️ Connected but Error: " +:+ first_50 (exn_str e))
                          (TestResponse.database_url response)
                          (TestResponse.database_name response)
                          (TestResponse.connection_status response)
                          (TestResponse.collections response)))
       | None => ret response
       end)
      (λ e, ret (TestResponse.mk (TestResponse.backend response)
                   ("❌ Error: " +:+ first_50 (exn_str e))
                   (TestResponse.database_url response)
                   (TestResponse.database_name response)
                   (TestResponse.connection_status response)
                   (TestResponse.collections response))) ;;
  ret (TestResponse.mk (TestResponse.backend response)
         (TestResponse.database response)
         (if env_set "DATABASE_URL" then "✅ Set" else "❌ Not Set")
         (if env_set "DATABASE_NAME" then "✅ Set" else "❌ Not Set")
         (TestResponse.connection_status response)
         (TestResponse.collections response)).
End TestDatabase.

(** ** Further notions used by the properties *)

(** A store none of whose operations fails. *)
Definition healthy (s : Store) : Prop := ∀ k, faults s k = None.



(** The fields that [ContactMessage] declares. *)
Definition contact_fields : list string :=
  ["name"; "email"; "company"; "message"; "topic"].



(** A stored reel that carries a field named [id]. *)
Definition reel_with_id_field : doc :=
  {[ "_id" := VObjectId "0";
     "id" := VStr "legacy-17";
     "title" := VStr "Old import";
     "thumbnail_url" := VStr "https://www.example.com/t.jpg" ]}.

(** The documents of collection [c] without the identifiers that the store
    gave them. *)
Definition stripped (s : Store) (c : string) : list doc :=
  delete "_id" <$> collection s c.

(** * Properties *)

Ltac run :=
  unfold bind, ret, raise, try_except, call, get_db, datetime_now; simpl.

(** ** POST /contact *)

(** C6. With [db] being [None] (the import failed, or the handle is
    unconfigured), [submit_contact] returns status ok with a null id for every
    payload: it does not raise, and no call reaches the store or a database
    helper. *)
Theorem submit_contact_unconfigured (payload : ContactMessage.t) (w : World) :
  db w = None →
  ∃ w', submit_contact payload w = (Ok (ContactResponse.mk "ok" None), w')
        ∧ calls w' = calls w ∧ database w' = database w.
Proof.
  intros Hdb. unfold submit_contact. run.
  unfold db in *. simpl. rewrite Hdb. eauto.
Qed.

Lemma submit_contact_unconfigured_witness :
  db (world (Imported None)) = None
  ∧ ∃ w', submit_contact alice (world (Imported None))
          = (Ok (ContactResponse.mk "ok" None), w')
          ∧ calls w' = calls (world (Imported None))
          ∧ database w' = database (world (Imported None)).
Proof.
  split; [reflexivity | apply (submit_contact_unconfigured alice); reflexivity].
Defined.

Lemma ContactMessage_init_ignores_received_at (body : doc) (v : value) :
  ContactMessage.init (<["received_at" := v]> body)
  = ContactMessage.init (delete "received_at" body).
Proof.
  unfold ContactMessage.init, required, with_default.
  rewrite !lookup_insert_ne, !lookup_delete_ne by done.
  reflexivity.
Qed.

Lemma collection_insert_one (c : string) (d : doc) (s : Store) :
  collection (insert_one c d s).2 c
  = collection s c ++ [<["_id" := VObjectId (insert_one c d s).1]> d].
Proof. unfold collection, insert_one. simpl. by rewrite lookup_insert_eq. Qed.

Lemma inserts_app (cs cs' : list Call) :
  inserts (cs ++ cs') = inserts cs ++ inserts cs'.
Proof. unfold inserts. apply omap_app. Qed.

(** C9. The [received_at] of a contact record is the server's clock reading
    at submission and does not depend on the client: a request body with any
    [received_at] behaves exactly as the same body without one (same
    response, same final world), and whenever the handler answers with an
    identifier, the one document handed to [create_document] and appended to
    the contact collection is the payload's dump with [received_at] set to
    that clock reading. *)
Theorem received_at_server_assigned :
  (∀ (body : doc) (v : value) (w : World),
     post_contact (<["received_at" := v]> body) w
     = post_contact (delete "received_at" body) w)
  ∧ (∀ (payload : ContactMessage.t) (w w' : World) (oid : string),
       submit_contact payload w = (Ok (ContactResponse.mk "ok" (Some oid)), w') →
       ∃ s s', db w = Some s ∧ db w' = Some s'
         ∧ collection s' COL_CONTACT
           = collection s COL_CONTACT
             ++ [<["_id" := VObjectId oid]>
                   (contact_record payload (clock w (reads w)))]
         ∧ inserts (calls w')
           = inserts (calls w)
             ++ [(COL_CONTACT, contact_record payload (clock w (reads w)))]).
Proof.
  split.
  - intros body v w. unfold post_contact.
    by rewrite ContactMessage_init_ignores_received_at.
  - intros payload [dbs t0 clk n cs] w' oid.
    unfold submit_contact, create_document, store_op, log_call, db. run.
    destruct dbs as [|[s|]]; simpl; try discriminate.
    destruct (faults s (ops s)) as [msg|] eqn:Hf; simpl; try discriminate.
    intros [= <- <-]. exists s. eexists. split; [done|]. split; [done|].
    split.
    + apply (collection_insert_one COL_CONTACT _ (store_tick s)).
    + unfold set_store, log_call. cbn [calls]. rewrite inserts_app. reflexivity.
Qed.

Lemma received_at_server_assigned_witness :
  let w := connected (empty_store no_faults) in
  let w' := snd (submit_contact alice w) in
  submit_contact alice w = (Ok (ContactResponse.mk "ok" (Some "0")), w')
  ∧ ∃ s s', db w = Some s ∧ db w' = Some s'
      ∧ collection s' COL_CONTACT
        = collection s COL_CONTACT
          ++ [<["_id" := VObjectId "0"]> (contact_record alice (clock w (reads w)))]
      ∧ inserts (calls w')
        = inserts (calls w)
          ++ [(COL_CONTACT, contact_record alice (clock w (reads w)))].
Proof.
  intros w w'.
  assert (H : submit_contact alice w = (Ok (ContactResponse.mk "ok" (Some "0")), w'))
    by (vm_compute; reflexivity).
  split; [exact H|].
  exact (proj2 received_at_server_assigned alice w w' "0" H).
Defined.

(** C7, as stated, fails: when the insert raises an error whose message has
    75 characters, the detail of the 500 response is that whole message, not
    a truncation of it. *)
Lemma contact_error_detail_not_truncated :
  let w := connected (empty_store (fault_at 0 outage)) in
  fst (create_document COL_CONTACT (contact_record alice (clock w (reads w)))
         (after_reads 1 w))
  = Raise (StoreError outage)
  ∧ String.length outage = 75%nat
  ∧ ∃ detail, fst (submit_contact alice w) = Raise (HTTPException 500 detail)
              ∧ ¬ truncated detail outage.
Proof.
  split; [vm_compute; reflexivity|]. split; [reflexivity|].
  exists outage. split; [vm_compute; reflexivity|].
  intros [_ Hne]. by apply Hne.
Qed.

(** C7, amended. When the store is configured and its insert raises an error
    with message [msg], [submit_contact] raises [HTTPException] with status
    500 whose detail is the whole of [msg]; nothing is stored. *)
Theorem submit_contact_insert_error (payload : ContactMessage.t) (w : World)
    (s : Store) (msg : string) :
  db w = Some s →
  faults s (ops s) = Some msg →
  ∃ w' s', submit_contact payload w = (Raise (HTTPException 500 msg), w')
           ∧ db w' = Some s' ∧ collections s' = collections s.
Proof.
  destruct w as [dbs t0 clk n cs]. unfold db. simpl. intros Hdb Hf.
  unfold submit_contact, create_document, store_op, db. run.
  destruct dbs as [|[s0|]]; simplify_eq. simpl. rewrite Hf. simpl.
  eexists _, _. split; [reflexivity|]. split; reflexivity.
Qed.

Lemma submit_contact_insert_error_witness :
  ∃ w' s', submit_contact alice (connected (empty_store (fault_at 0 outage)))
           = (Raise (HTTPException 500 outage), w')
           ∧ db w' = Some s'
           ∧ collections s' = collections (empty_store (fault_at 0 outage)).
Proof.
  apply (submit_contact_insert_error alice
           (connected (empty_store (fault_at 0 outage)))
           (empty_store (fault_at 0 outage)) outage); reflexivity.
Defined.

(** ** The Fallback Catalog *)

Lemma comprehension_seed_reels (w : World) :
  comprehension Reel.init SEED_REELS w
  = (Ok [fallback_reel_1 (clock w (reads w));
         fallback_reel_2 (clock w (S (reads w)))],
     after_reads 2 w).
Proof. destruct w as [dbs t0 clk n cs]. vm_compute. reflexivity. Qed.

Lemma reels_fallback_eq (limit : Z) (w : World) :
  reels_fallback limit w
  = (Ok (slice_to limit [fallback_reel_1 (clock w (reads w));
                         fallback_reel_2 (clock w (S (reads w)))]),
     after_reads 2 w).
Proof.
  unfold reels_fallback, bind. rewrite comprehension_seed_reels. reflexivity.
Qed.

Lemma metrics_fallback_eq (w : World) :
  metrics_fallback w = (Ok [fallback_metric (module_loaded_at w)], w).
Proof. destruct w as [dbs t0 clk n cs]. vm_compute. reflexivity. Qed.

Lemma slice_to_length {A} (k : Z) (l : list A) :
  (length (slice_to k l) ≤ length l)%nat
  ∧ (0 ≤ k → (length (slice_to k l) ≤ Z.to_nat k)%nat).
Proof.
  unfold slice_to. destruct (0 <=? k) eqn:Hk; rewrite length_take; split; lia.
Qed.

(** ** GET /reels *)

(** The constructors read the clock and nothing else. *)
Lemma Reel_init_world (kw : doc) (w : World) :
  snd (Reel.init kw w) = w ∨ snd (Reel.init kw w) = after_reads 1 w.
Proof.
  unfold Reel.init, with_default_factory, bind.
  destruct (kw !! "posted_at") as [v|]; run.
  - left. repeat case_match; reflexivity.
  - right. repeat case_match; reflexivity.
Qed.

Lemma Metric_init_world (kw : doc) (w : World) :
  snd (Metric.init kw w) = w ∨ snd (Metric.init kw w) = after_reads 1 w.
Proof.
  unfold Metric.init, with_default_factory, bind.
  destruct (kw !! "last_updated") as [v|]; run.
  - left. repeat case_match; reflexivity.
  - right. repeat case_match; reflexivity.
Qed.

Lemma same_store_refl (w : World) : same_store w w.
Proof. by unfold same_store. Qed.

Lemma same_store_trans (w1 w2 w3 : World) :
  same_store w1 w2 → same_store w2 w3 → same_store w1 w3.
Proof. unfold same_store. intros (-> & -> & ->) (-> & -> & ->). done. Qed.

Lemma same_store_after_reads (k : nat) (w : World) : same_store w (after_reads k w).
Proof. by unfold same_store. Qed.

Lemma Reel_init_with_id_same_store (rid : option string) (d : doc) (w : World) :
  same_store w (snd (Reel.init_with_id rid d w)).
Proof.
  unfold Reel.init_with_id. destruct (d !! "id"); [apply same_store_refl|].
  destruct (Reel_init_world (<["id":=from_option VStr VNone rid]> d) w) as [-> | ->];
    [apply same_store_refl | apply same_store_after_reads].
Qed.

Lemma Metric_init_same_store (kw : doc) (w : World) :
  same_store w (snd (Metric.init kw w)).
Proof.
  destruct (Metric_init_world kw w) as [-> | ->];
    [apply same_store_refl | apply same_store_after_reads].
Qed.

Lemma reels_loop_spec (py_str : value → string) (docs : list doc) :
  ∀ (items : list Reel.t) (w : World),
    same_store w (snd (reels_loop py_str docs items w))
    ∧ ∀ out, fst (reels_loop py_str docs items w) = Ok out →
             length out = (length items + length docs)%nat.
Proof.
  induction docs as [|d docs IH]; intros items w; simpl.
  - split; [apply same_store_refl|]. intros out [= <-]. lia.
  - unfold bind.
    pose proof (Reel_init_with_id_same_store (reel_id py_str d) (delete "_id" d) w) as Hs.
    destruct (Reel.init_with_id _ _ w) as [[r|e] w1]; simpl in *.
    + destruct (IH (items ++ [r]) w1) as [Hs' Hlen]. split.
      * eapply same_store_trans; eauto.
      * intros out Hout. rewrite (Hlen out Hout), length_app. simpl. lia.
    + split; [done|]. intros out [=].
Qed.

(** The database helper logs its call and returns at most [limit]
    documents. *)
Lemma get_documents_spec (c : string) (filter : option doc) (limit : option Z)
    (w : World) :
  calls (snd (get_documents c filter limit w))
  = calls w ++ [CallGetDocuments c filter limit]
  ∧ module_loaded_at (snd (get_documents c filter limit w)) = module_loaded_at w
  ∧ ∀ docs n, fst (get_documents c filter limit w) = Ok docs →
              limit = Some n → (length docs ≤ Z.to_nat n)%nat.
Proof.
  destruct w as [dbs t0 clk k cs].
  unfold get_documents, store_op, find, db. run.
  destruct dbs as [|[s|]]; simpl.
  - split; [done|]. split; [done|]. intros ? ? [=].
  - destruct (faults s (ops s)); simpl.
    + split; [done|]. split; [done|]. intros ? ? [=].
    + split; [done|]. split; [done|]. intros docs n [= <-] ->.
      destruct (n <=? 0) eqn:Hn; simpl; [lia|]. rewrite length_take. lia.
  - split; [done|]. split; [done|]. intros ? ? [=].
Qed.

(** The shape of every answer of [get_reels]: one call to [get_documents],
    with the limit capped at 50, and either the records built from the
    documents it returned or the sliced Fallback Catalog. *)
Lemma get_reels_spec (py_str : value → string) (limit : Z) (w : World) :
  ∃ items, fst (get_reels py_str limit w) = Ok items
    ∧ calls (snd (get_reels py_str limit w))
      = calls w ++ [CallGetDocuments COL_REEL (Some ∅) (Some (Z.min limit 50))]
    ∧ ((length items ≤ Z.to_nat (Z.min limit 50))%nat
       ∨ ∃ t1 t2, items = slice_to limit [fallback_reel_1 t1; fallback_reel_2 t2]).
Proof.
  unfold get_reels, try_except, bind.
  destruct (get_documents_spec COL_REEL (Some ∅) (Some (Z.min limit 50)) w)
    as (Hcalls & _ & Hlen).
  destruct (get_documents COL_REEL (Some ∅) (Some (Z.min limit 50)) w)
    as [[docs|e] w1]; simpl in *.
  - destruct (reels_loop_spec py_str docs [] w1) as [(_ & Hc & _) Hout].
    destruct (reels_loop py_str docs [] w1) as [[items|e] w2]; simpl in *.
    + exists items. split; [done|]. split; [congruence|]. left.
      rewrite (Hout items eq_refl). simpl. by eapply Hlen.
    + rewrite reels_fallback_eq. simpl. eexists. split; [done|].
      split; [congruence|]. right. eauto.
  - rewrite reels_fallback_eq. simpl. eexists. split; [done|].
    split; [done|]. right. eauto.
Qed.

(** C10. Without a [limit] parameter the limit is 20: the read is issued to
    [get_documents] with limit 20, the request does not fail, and the
    response has at most 20 records. *)
Theorem get_reels_default_limit (py_str : value → string) (w : World) :
  ∃ items, fst (get_reels_request py_str None w) = Ok items
    ∧ calls (snd (get_reels_request py_str None w))
      = calls w ++ [CallGetDocuments COL_REEL (Some ∅) (Some 20)]
    ∧ (length items ≤ 20)%nat.
Proof.
  unfold get_reels_request. simpl.
  destruct (get_reels_spec py_str 20 w) as (items & Hok & Hcalls & Hlen).
  exists items. split; [done|]. split; [done|].
  destruct Hlen as [Hlen | (t1 & t2 & ->)]; [lia|].
  destruct (slice_to_length 20 [fallback_reel_1 t1; fallback_reel_2 t2]) as [H _].
  change (length [fallback_reel_1 t1; fallback_reel_2 t2]) with 2%nat in H. lia.
Qed.

(** C4. Against a connected store, whatever limit the caller asks for, the
    limit passed to [get_documents] is the minimum of it and 50, the request
    does not fail, and the response has at most 50 records. *)
Theorem get_reels_at_most_50 (py_str : value → string) (limit : Z) (w : World)
    (s : Store) :
  db w = Some s →
  ∃ items, fst (get_reels py_str limit w) = Ok items
    ∧ (length items ≤ 50)%nat
    ∧ ∃ capped, capped ≤ 50
        ∧ calls (snd (get_reels py_str limit w))
          = calls w ++ [CallGetDocuments COL_REEL (Some ∅) (Some capped)].
Proof.
  intros _.
  destruct (get_reels_spec py_str limit w) as (items & Hok & Hcalls & Hlen).
  exists items. split; [done|]. split.
  - destruct Hlen as [Hlen | (t1 & t2 & ->)]; [lia|].
    destruct (slice_to_length limit [fallback_reel_1 t1; fallback_reel_2 t2]) as [H _].
    change (length [fallback_reel_1 t1; fallback_reel_2 t2]) with 2%nat in H. lia.
  - exists (Z.min limit 50). split; [lia | done].
Qed.

Lemma get_reels_at_most_50_witness :
  db (connected crowded_store) = Some crowded_store
  ∧ ∃ items, fst (get_reels id_str 1000 (connected crowded_store)) = Ok items
      ∧ (length items ≤ 50)%nat
      ∧ ∃ capped, capped ≤ 50
          ∧ calls (snd (get_reels id_str 1000 (connected crowded_store)))
            = calls (connected crowded_store)
              ++ [CallGetDocuments COL_REEL (Some ∅) (Some capped)].
Proof.
  split; [reflexivity|].
  apply (get_reels_at_most_50 id_str 1000 (connected crowded_store) crowded_store).
  reflexivity.
Defined.

(** Of the 60 stored reels, a request for 1000 gets the first 50. *)
Example get_reels_1000_of_60 :
  length <$> (match fst (get_reels id_str 1000 (connected crowded_store)) with
              | Ok items => Some items
              | Raise _ => None
              end) = Some 50%nat.
Proof. vm_compute. reflexivity. Qed.

(** C5 fails on the fallback path at limit -1: with [db] unconfigured,
    [get_reels(-1)] answers with one record, the first seed reel, because
    the slice of line 160 counts a negative limit from the end of the
    two-element catalog. (A limit of 0 gives the empty answer.) *)
Theorem get_reels_negative_limit_fallback :
  fst (get_reels id_str (-1) (world (Imported None)))
  = Ok [fallback_reel_1 1700000000000000]
  ∧ fst (get_reels id_str (-1) (world ImportFailed))
    = Ok [fallback_reel_1 1700000000000000]
  ∧ fst (get_reels id_str 0 (world (Imported None))) = Ok [].
Proof. repeat split; vm_compute; reflexivity. Qed.

(** C8 fails for the reels: two successive fallback answers of [get_reels],
    with equal limits and [db] unconfigured, differ in [posted_at], which
    each call takes from the clock; the fallback answers of [get_metrics]
    are equal, their [last_updated] being fixed when the module is loaded. *)
Theorem reels_fallback_differs_across_calls :
  let w0 := world (Imported None) in
  let w1 := snd (get_reels id_str 20 w0) in
  fst (get_reels id_str 20 w0)
  = Ok [fallback_reel_1 1700000000000000; fallback_reel_2 1700000000000017]
  ∧ fst (get_reels id_str 20 w1)
    = Ok [fallback_reel_1 1700000000000042; fallback_reel_2 1700000000350000]
  ∧ fst (get_reels id_str 20 w0) ≠ fst (get_reels id_str 20 w1)
  ∧ fst (get_metrics w0) = fst (get_metrics (snd (get_metrics w0))).
Proof.
  intros w0 w1.
  assert (H0 : fst (get_reels id_str 20 w0)
               = Ok [fallback_reel_1 1700000000000000; fallback_reel_2 1700000000000017])
    by (vm_compute; reflexivity).
  assert (H1 : fst (get_reels id_str 20 w1)
               = Ok [fallback_reel_1 1700000000000042; fallback_reel_2 1700000000350000])
    by (vm_compute; reflexivity).
  split; [exact H0|]. split; [exact H1|]. split.
  - rewrite H0, H1. intros [=].
  - vm_compute. reflexivity.
Qed.

(** ** The Bootstrap Seeder *)

Lemma matches_empty (d : doc) : matches ∅ d = true.
Proof. unfold matches. by rewrite map_to_list_empty. Qed.

Lemma matching_empty (s : Store) (c : string) : matching s c ∅ = collection s c.
Proof.
  unfold matching. induction (collection s c) as [|d l IH]; [done|].
  simpl. rewrite matches_empty. by f_equal.
Qed.

Lemma nonempty_by_length {A} (l : list A) : (0 <? length l)%nat = true → l ≠ [].
Proof. by destruct l. Qed.

Lemma count_nonempty (l : list doc) : l ≠ [] → (Z.of_nat (length l) =? 0) = false.
Proof. destruct l; [done|]. intros _. simpl. lia. Qed.

(** Counting with the empty filter: the operation raises, or it gives the
    length of the collection; either way the store keeps its documents. *)
Lemma count_documents_spec (c : string) (w : World) (s : Store) :
  db w = Some s →
  let w' := set_store (store_tick s) (log_call (CallCountDocuments c ∅) w) in
  (∃ msg, count_documents c ∅ w = (Raise (StoreError msg), w'))
  ∨ count_documents c ∅ w = (Ok (Z.of_nat (length (collection s c))), w').
Proof.
  intros Hdb w'. subst w'. destruct w as [dbs t0 clk k cs].
  unfold count_documents, store_op, db in *. run. simpl in Hdb. rewrite Hdb.
  destruct (faults s (ops s)) as [msg|]; [left; eauto|right].
  by rewrite matching_empty.
Qed.

Lemma inserts_count (c : string) (w : World) (s : Store) :
  inserts (calls (set_store s (log_call (CallCountDocuments c ∅) w)))
  = inserts (calls w).
Proof. simpl. rewrite inserts_app. simpl. apply app_nil_r. Qed.

(** A seeding step on a non-empty collection: whether the count raises or
    not, nothing is inserted. *)
Lemma seed_metric_collection_nonempty (w : World) (s : Store) :
  db w = Some s → collection s COL_METRIC ≠ [] →
  ∃ s', db (snd (seed_metric_collection w)) = Some s'
        ∧ collections s' = collections s
        ∧ inserts (calls (snd (seed_metric_collection w))) = inserts (calls w).
Proof.
  intros Hdb Hne. unfold seed_metric_collection, bind.
  destruct (count_documents_spec COL_METRIC w s Hdb) as [[msg ->] | ->]; cbn [snd].
  - exists (store_tick s). by rewrite inserts_count.
  - rewrite (count_nonempty _ Hne). unfold ret. cbn [snd].
    exists (store_tick s). by rewrite inserts_count.
Qed.

Lemma seed_reel_collection_nonempty (w : World) (s : Store) :
  db w = Some s → collection s COL_REEL ≠ [] →
  ∃ s', db (snd (seed_reel_collection w)) = Some s'
        ∧ collections s' = collections s
        ∧ inserts (calls (snd (seed_reel_collection w))) = inserts (calls w).
Proof.
  intros Hdb Hne. unfold seed_reel_collection, bind.
  destruct (count_documents_spec COL_REEL w s Hdb) as [[msg ->] | ->]; cbn [snd].
  - exists (store_tick s). by rewrite inserts_count.
  - rewrite (count_nonempty _ Hne). unfold ret. cbn [snd].
    exists (store_tick s). by rewrite inserts_count.
Qed.

Lemma collection_same (s s' : Store) (c : string) :
  collections s' = collections s → collection s' c = collection s c.
Proof. unfold collection. by intros ->. Qed.

Lemma seed_data_nonempty (w : World) (s : Store) :
  db w = Some s →
  collection s COL_METRIC ≠ [] → collection s COL_REEL ≠ [] →
  ∃ s', db (snd (seed_data w)) = Some s'
        ∧ collections s' = collections s
        ∧ inserts (calls (snd (seed_data w))) = inserts (calls w).
Proof.
  intros Hdb Hm Hr. unfold seed_data, bind, get_db. rewrite Hdb.
  destruct (seed_metric_collection_nonempty w s Hdb Hm) as (s1 & Hdb1 & Hc1 & Hi1).
  destruct (seed_metric_collection w) as [[[]|e] w1]; simpl in *.
  - rewrite <- (collection_same s s1 COL_REEL Hc1) in Hr.
    destruct (seed_reel_collection_nonempty w1 s1 Hdb1 Hr) as (s2 & Hdb2 & Hc2 & Hi2).
    exists s2. split; [done|]. split; congruence.
  - eauto.
Qed.

(** C2. The seeder is idempotent on a seeded store: when the Metric and the
    Reel collection are both non-empty, [seed_data] passes no document to
    [create_document] and leaves every collection as it is, so that after
    running it once and after running it twice the store holds the same
    documents as before. *)
Theorem seed_data_idempotent (w : World) (s : Store) :
  db w = Some s →
  collection s COL_METRIC ≠ [] → collection s COL_REEL ≠ [] →
  let w1 := snd (seed_data w) in
  let w2 := snd (seed_data w1) in
  (∃ s1, db w1 = Some s1 ∧ collections s1 = collections s)
  ∧ inserts (calls w1) = inserts (calls w)
  ∧ (∃ s2, db w2 = Some s2 ∧ collections s2 = collections s)
  ∧ inserts (calls w2) = inserts (calls w).
Proof.
  intros Hdb Hm Hr w1 w2.
  destruct (seed_data_nonempty w s Hdb Hm Hr) as (s1 & Hdb1 & Hc1 & Hi1).
  fold w1 in Hdb1, Hi1.
  rewrite <- (collection_same s s1 COL_METRIC Hc1) in Hm.
  rewrite <- (collection_same s s1 COL_REEL Hc1) in Hr.
  destruct (seed_data_nonempty w1 s1 Hdb1 Hm Hr) as (s2 & Hdb2 & Hc2 & Hi2).
  fold w2 in Hdb2, Hi2.
  split; [eauto|]. split; [done|]. split; [exists s2; split; congruence|congruence].
Qed.

Lemma seed_data_idempotent_witness :
  db seeded_world = Some seeded_store
  ∧ collection seeded_store COL_METRIC ≠ []
  ∧ collection seeded_store COL_REEL ≠ []
  ∧ (∃ s1, db (snd (seed_data seeded_world)) = Some s1
           ∧ collections s1 = collections seeded_store)
  ∧ inserts (calls (snd (seed_data seeded_world))) = inserts (calls seeded_world)
  ∧ (∃ s2, db (snd (seed_data (snd (seed_data seeded_world)))) = Some s2
           ∧ collections s2 = collections seeded_store)
  ∧ inserts (calls (snd (seed_data (snd (seed_data seeded_world)))))
    = inserts (calls seeded_world).
Proof.
  assert (Hdb : db seeded_world = Some seeded_store) by (vm_compute; reflexivity).
  assert (Hm : collection seeded_store COL_METRIC ≠ [])
    by (apply nonempty_by_length; vm_compute; reflexivity).
  assert (Hr : collection seeded_store COL_REEL ≠ [])
    by (apply nonempty_by_length; vm_compute; reflexivity).
  split; [exact Hdb|]. split; [exact Hm|]. split; [exact Hr|].
  exact (seed_data_idempotent seeded_world seeded_store Hdb Hm Hr).
Defined.

(** Starting from an empty, healthy store: the first startup inserts the one
    seed metric and the two seed reels, and a second startup adds nothing. *)
Example startup_twice_from_empty :
  let again := default (empty_store no_faults) (db (snd (on_startup seeded_world))) in
  length (collection seeded_store COL_METRIC) = 1%nat
  ∧ length (collection seeded_store COL_REEL) = 2%nat
  ∧ length (collection again COL_METRIC) = 1%nat
  ∧ length (collection again COL_REEL) = 2%nat
  ∧ length (inserts (calls (snd (on_startup seeded_world)))) = 3%nat.
Proof. repeat split; vm_compute; reflexivity. Qed.

(** ** Validation errors on the read paths *)

(** C1, as stated, fails: the store returns a metric whose [followers] is
    negative, building the record raises [ValidationError], and [get_metrics]
    answers with the Fallback Catalog instead of failing; likewise
    [get_reels] on a stored reel whose [thumbnail_url] is not a URL. *)
Lemma validation_error_replaced_by_fallback :
  let wm := connected (store_with COL_METRIC [bad_metric]) in
  let wr := connected (store_with COL_REEL [bad_reel]) in
  fst (get_documents COL_METRIC None None wm) = Ok [bad_metric]
  ∧ fst (metrics_loop [bad_metric] [] (snd (get_documents COL_METRIC None None wm)))
    = Raise (ValidationError ["followers"])
  ∧ fst (get_metrics wm) = Ok [fallback_metric 1699999999000000]
  ∧ fst (get_documents COL_REEL (Some ∅) (Some 20) wr) = Ok [bad_reel]
  ∧ fst (reels_loop id_str [bad_reel] []
           (snd (get_documents COL_REEL (Some ∅) (Some 20) wr)))
    = Raise (ValidationError ["thumbnail_url"])
  ∧ fst (get_reels id_str 20 wr)
    = Ok [fallback_reel_1 1700000000000017; fallback_reel_2 1700000000000042].
Proof.
  intros wm wr. split; [reflexivity|]. split; [vm_compute; reflexivity|].
  split; [vm_compute; reflexivity|]. split; [reflexivity|].
  split; vm_compute; reflexivity.
Qed.

Lemma metrics_loop_same_store (docs : list doc) :
  ∀ (items : list Metric.t) (w : World),
    same_store w (snd (metrics_loop docs items w)).
Proof.
  induction docs as [|d docs IH]; intros items w; simpl.
  - apply same_store_refl.
  - unfold bind. pose proof (Metric_init_same_store (delete "_id" d) w) as Hs.
    destruct (Metric.init (delete "_id" d) w) as [[m|e] w1]; simpl in *; [|done].
    eapply same_store_trans; [exact Hs | apply IH].
Qed.

(** One rejected document makes the whole loop raise. *)
Lemma metrics_loop_rejected (docs : list doc) (d : doc) :
  d ∈ docs → metric_rejected d →
  ∀ (items : list Metric.t) (w : World),
    ∃ e, fst (metrics_loop docs items w) = Raise e.
Proof.
  intros Hin Hrej. induction docs as [|d' docs IH]; intros items w.
  - by apply elem_of_nil in Hin.
  - simpl. unfold bind.
    destruct (Metric.init (delete "_id" d') w) as [[m|e] w1] eqn:E; simpl; [|eauto].
    apply elem_of_cons in Hin as [-> | Hin]; [|by apply IH].
    destruct (Hrej w) as [fields Hf]. rewrite E in Hf. discriminate.
Qed.

Lemma reels_loop_rejected (py_str : value → string) (docs : list doc) (d : doc) :
  d ∈ docs → reel_rejected py_str d →
  ∀ (items : list Reel.t) (w : World),
    ∃ e, fst (reels_loop py_str docs items w) = Raise e.
Proof.
  intros Hin Hrej. induction docs as [|d' docs IH]; intros items w.
  - by apply elem_of_nil in Hin.
  - simpl. unfold bind.
    destruct (Reel.init_with_id (reel_id py_str d') (delete "_id" d') w)
      as [[r|e] w1] eqn:E; simpl; [|eauto].
    apply elem_of_cons in Hin as [-> | Hin]; [|by apply IH].
    destruct (Hrej w) as [fields Hf]. rewrite E in Hf. discriminate.
Qed.

(** C1, amended. On both read paths a [ValidationError] raised while a
    record is built from a store-returned document is caught like every other
    exception: the request does not fail, and the answer is the Fallback
    Catalog (for the reels, sliced at the limit). *)
Theorem validation_error_falls_back :
  (∀ (w : World) (docs : list doc) (d : doc),
     fst (get_documents COL_METRIC None None w) = Ok docs →
     d ∈ docs → metric_rejected d →
     fst (get_metrics w) = Ok [fallback_metric (module_loaded_at w)])
  ∧ (∀ (py_str : value → string) (limit : Z) (w : World) (docs : list doc) (d : doc),
       fst (get_documents COL_REEL (Some ∅) (Some (Z.min limit 50)) w) = Ok docs →
       d ∈ docs → reel_rejected py_str d →
       ∃ t1 t2, fst (get_reels py_str limit w)
                = Ok (slice_to limit [fallback_reel_1 t1; fallback_reel_2 t2])).
Proof.
  split.
  - intros w docs d Hget Hin Hrej. unfold get_metrics, try_except, bind.
    destruct (get_documents_spec COL_METRIC None None w) as (_ & Ht & _).
    destruct (get_documents COL_METRIC None None w) as [[docs'|e] w1];
      simpl in *; [|discriminate].
    injection Hget as ->.
    destruct (metrics_loop_rejected docs d Hin Hrej [] w1) as [e He].
    pose proof (metrics_loop_same_store docs [] w1) as (_ & _ & Ht').
    destruct (metrics_loop docs [] w1) as [[items|e'] w2]; simpl in *;
      [discriminate|].
    rewrite metrics_fallback_eq. simpl. by rewrite Ht', Ht.
  - intros py_str limit w docs d Hget Hin Hrej. unfold get_reels, try_except, bind.
    destruct (get_documents COL_REEL (Some ∅) (Some (Z.min limit 50)) w)
      as [[docs'|e] w1]; simpl in *; [|discriminate].
    injection Hget as ->.
    destruct (reels_loop_rejected py_str docs d Hin Hrej [] w1) as [e He].
    destruct (reels_loop py_str docs [] w1) as [[items|e'] w2]; simpl in *;
      [discriminate|].
    rewrite reels_fallback_eq. simpl. eauto.
Qed.

Lemma validation_error_falls_back_witness :
  fst (get_metrics (connected (store_with COL_METRIC [bad_metric])))
  = Ok [fallback_metric
          (module_loaded_at (connected (store_with COL_METRIC [bad_metric])))]
  ∧ ∃ t1 t2, fst (get_reels id_str 20 (connected (store_with COL_REEL [bad_reel])))
             = Ok (slice_to 20 [fallback_reel_1 t1; fallback_reel_2 t2]).
Proof.
  split.
  - apply (proj1 validation_error_falls_back
             (connected (store_with COL_METRIC [bad_metric])) [bad_metric] bad_metric).
    + reflexivity.
    + apply list_elem_of_singleton. reflexivity.
    + intros [dbs t0 clk k cs]. exists ["followers"]. vm_compute. reflexivity.
  - apply (proj2 validation_error_falls_back id_str 20
             (connected (store_with COL_REEL [bad_reel])) [bad_reel] bad_reel).
    + reflexivity.
    + apply list_elem_of_singleton. reflexivity.
    + intros [dbs t0 clk k cs]. exists ["thumbnail_url"]. vm_compute. reflexivity.
Defined.

(** ** Startup *)

#[local] Instance nothing_seeded_refl : Reflexive nothing_seeded.
Proof. by intros w. Qed.

#[local] Instance nothing_seeded_trans : Transitive nothing_seeded.
Proof. intros w1 w2 w3 [H1 H2] [H3 H4]. split; congruence. Qed.

#[local] Instance untouched_refl (c : string) : Reflexive (untouched c).
Proof. by intros w. Qed.

#[local] Instance untouched_trans (c : string) : Transitive (untouched c).
Proof. intros w1 w2 w3 [H1 H2] [H3 H4]. split; congruence. Qed.

(** Sequencing and iteration keep every reflexive, transitive relation
    between the world before and the world after. *)
Lemma bind_preserves {A B} (R : relation World) `{!Transitive R}
    (m : M A) (k : A → M B) (w : World) :
  R w (snd (m w)) → (∀ a w1, R w1 (snd (k a w1))) → R w (snd (bind m k w)).
Proof.
  intros Hm Hk. unfold bind. destruct (m w) as [[a|e] w1]; simpl in *; [|done].
  etrans; [exact Hm | apply Hk].
Qed.

Lemma for_each_preserves {A} (R : relation World) `{!Reflexive R, !Transitive R}
    (body : A → M unit) (l : list A) :
  (∀ x w, R w (snd (body x w))) → ∀ w, R w (snd (for_each l body w)).
Proof.
  intros Hb. induction l as [|x l IH]; intros w; simpl; [reflexivity|].
  apply (bind_preserves R); [apply Hb | intros _; apply IH].
Qed.

Lemma inserts_snoc_index (cs : list Call) (c : string) (keys : index_keys) :
  inserts (cs ++ [CallCreateIndex c keys]) = inserts cs.
Proof. rewrite inserts_app. simpl. apply app_nil_r. Qed.

Lemma create_index_nothing_seeded (c : string) (keys : index_keys) (w : World) :
  nothing_seeded w (snd (create_index c keys w)).
Proof.
  destruct w as [dbs t0 clk k cs].
  unfold nothing_seeded, create_index, store_op, add_index, db. run.
  destruct dbs as [|[s|]]; simpl;
    [by rewrite inserts_snoc_index | | by rewrite inserts_snoc_index].
  destruct (faults s (ops s)); simpl; [by rewrite inserts_snoc_index|].
  case_bool_decide; simpl; by rewrite inserts_snoc_index.
Qed.

Lemma ensure_indexes_nothing_seeded (w : World) :
  nothing_seeded w (snd (ensure_indexes w)).
Proof.
  unfold ensure_indexes. apply (bind_preserves nothing_seeded); [reflexivity|].
  intros [s|] w1; [|reflexivity].
  repeat (apply (bind_preserves nothing_seeded);
          [apply create_index_nothing_seeded | intros _ ?]).
  apply create_index_nothing_seeded.
Qed.

Lemma seeding_calls_snoc (c : string) (cs : list Call) (k : Call) :
  seeding_calls c [k] = [] → seeding_calls c (cs ++ [k]) = seeding_calls c cs.
Proof.
  unfold seeding_calls. intros Hk. rewrite List.filter_app, Hk. apply app_nil_r.
Qed.

Lemma create_index_untouched (c c' : string) (keys : index_keys) (w : World) :
  untouched c w (snd (create_index c' keys w)).
Proof.
  destruct w as [dbs t0 clk k cs].
  unfold untouched, create_index, store_op, add_index, db. run.
  destruct dbs as [|[s|]]; simpl; [by rewrite seeding_calls_snoc| |by rewrite seeding_calls_snoc].
  destruct (faults s (ops s)); simpl; [by rewrite seeding_calls_snoc|].
  case_bool_decide; simpl; by rewrite seeding_calls_snoc.
Qed.

Lemma ensure_indexes_untouched (c : string) (w : World) :
  untouched c w (snd (ensure_indexes w)).
Proof.
  unfold ensure_indexes. apply (bind_preserves (untouched c)); [reflexivity|].
  intros [s|] w1; [|reflexivity].
  repeat (apply (bind_preserves (untouched c));
          [apply create_index_untouched | intros _ ?]).
  apply create_index_untouched.
Qed.

Lemma count_documents_untouched (c c' : string) (filter : doc) (w : World) :
  c ≠ c' → untouched c w (snd (count_documents c' filter w)).
Proof.
  intros Hne. destruct w as [dbs t0 clk k cs].
  assert (Hk : seeding_calls c [CallCountDocuments c' filter] = [])
    by (simpl; by apply String.eqb_neq in Hne as ->).
  unfold untouched, count_documents, store_op, db. run.
  destruct dbs as [|[s|]]; simpl; [by rewrite seeding_calls_snoc| |by rewrite seeding_calls_snoc].
  destruct (faults s (ops s)); simpl; by rewrite seeding_calls_snoc.
Qed.

Lemma create_document_untouched (c c' : string) (d : doc) (w : World) :
  c ≠ c' → untouched c w (snd (create_document c' d w)).
Proof.
  intros Hne. destruct w as [dbs t0 clk k cs].
  assert (Hk : seeding_calls c [CallCreateDocument c' d] = [])
    by (simpl; by apply String.eqb_neq in Hne as ->).
  unfold untouched, create_document, store_op, insert_one, db. run.
  destruct dbs as [|[s|]]; simpl; [by rewrite seeding_calls_snoc| |by rewrite seeding_calls_snoc].
  destruct (faults s (ops s)); simpl; rewrite seeding_calls_snoc by done; [done|].
  split; [|done]. f_equal. unfold collection. simpl. by rewrite lookup_insert_ne.
Qed.

(** Seeding the Metric collection leaves the Reel collection alone. *)
Lemma seed_metric_collection_untouched (w : World) :
  untouched COL_REEL w (snd (seed_metric_collection w)).
Proof.
  unfold seed_metric_collection.
  apply (bind_preserves (untouched COL_REEL));
    [by apply count_documents_untouched|].
  intros n w1. destruct (n =? 0); [|reflexivity].
  apply (bind_preserves (untouched COL_REEL)); [reflexivity|].
  intros seeds w2. apply (for_each_preserves (untouched COL_REEL)).
  intros m w3. apply (bind_preserves (untouched COL_REEL));
    [by apply create_document_untouched | reflexivity].
Qed.

(** C3, as stated, fails. On an empty store whose first operation (the first
    [create_index]) raises, startup inserts nothing, where the same store
    without the fault gets its three seed documents; and when the insert of
    the seed metric raises, the Reel collection is neither counted nor
    seeded. *)
Lemma seeder_steps_not_independent :
  let healthy := snd (on_startup (connected (empty_store no_faults))) in
  let w_index := connected (empty_store (fault_at 0 outage)) in
  let w_metric := connected (empty_store (fault_at 4 outage)) in
  length (collection (store_of healthy) COL_METRIC) = 1%nat
  ∧ length (collection (store_of healthy) COL_REEL) = 2%nat
  ∧ fst (ensure_indexes w_index) = Raise (StoreError outage)
  ∧ fst (on_startup w_index) = Ok tt
  ∧ length (collection (store_of (snd (on_startup w_index))) COL_METRIC) = 0%nat
  ∧ length (seeding_calls COL_METRIC (calls (snd (on_startup w_index)))) = 0%nat
  ∧ fst (ensure_indexes w_metric) = Ok tt
  ∧ fst (seed_metric_collection (snd (ensure_indexes w_metric)))
    = Raise (StoreError outage)
  ∧ fst (on_startup w_metric) = Ok tt
  ∧ length (collection (store_of (snd (on_startup w_metric))) COL_REEL) = 0%nat
  ∧ length (seeding_calls COL_REEL (calls (snd (on_startup w_metric)))) = 0%nat.
Proof. repeat split; vm_compute; reflexivity. Qed.

(** C3, amended. Startup as a whole tolerates faults: [on_startup] never
    raises. Its steps are not independent: an error raised while ensuring the
    indexes ends startup there, with no document inserted, and an error
    raised while seeding the Metric collection ends startup there, with the
    Reel collection neither counted nor seeded. *)
Theorem on_startup_aborts_on_error (w : World) :
  fst (on_startup w) = Ok tt
  ∧ (∀ e, fst (ensure_indexes w) = Raise e →
       snd (on_startup w) = snd (ensure_indexes w)
       ∧ nothing_seeded w (snd (on_startup w)))
  ∧ (∀ e, fst (ensure_indexes w) = Ok tt →
       db (snd (ensure_indexes w)) ≠ None →
       fst (seed_metric_collection (snd (ensure_indexes w))) = Raise e →
       snd (on_startup w) = snd (seed_metric_collection (snd (ensure_indexes w)))
       ∧ untouched COL_REEL w (snd (on_startup w))).
Proof.
  split; [|split].
  - unfold on_startup, try_except.
    by destruct ((ensure_indexes;;; seed_data) w) as [[[]|e] w1].
  - intros e He. pose proof (ensure_indexes_nothing_seeded w) as Hns.
    unfold on_startup, try_except, bind.
    destruct (ensure_indexes w) as [[[]|e0] w1]; simpl in *; [discriminate|].
    by unfold ret.
  - intros e Hok Hdb Hm. pose proof (ensure_indexes_untouched COL_REEL w) as Hu.
    pose proof (seed_metric_collection_untouched (snd (ensure_indexes w))) as Hu'.
    unfold on_startup, try_except, bind, seed_data, get_db, bind.
    destruct (ensure_indexes w) as [[[]|e0] w1]; simpl in *; [|discriminate].
    destruct (db w1) as [s1|]; [|done].
    destruct (seed_metric_collection w1) as [[[]|e1] w2]; simpl in *; [discriminate|].
    unfold ret. simpl. split; [done|]. by etrans.
Qed.

Lemma on_startup_aborts_on_error_witness :
  let w_index := connected (empty_store (fault_at 0 outage)) in
  let w_metric := connected (empty_store (fault_at 4 outage)) in
  (snd (on_startup w_index) = snd (ensure_indexes w_index)
   ∧ nothing_seeded w_index (snd (on_startup w_index)))
  ∧ (snd (on_startup w_metric)
     = snd (seed_metric_collection (snd (ensure_indexes w_metric)))
     ∧ untouched COL_REEL w_metric (snd (on_startup w_metric))).
Proof.
  intros w_index w_metric. split.
  - apply (proj1 (proj2 (on_startup_aborts_on_error w_index)) (StoreError outage)).
    vm_compute. reflexivity.
  - apply (proj2 (proj2 (on_startup_aborts_on_error w_metric)) (StoreError outage)).
    + vm_compute. reflexivity.
    + vm_compute. discriminate.
    + vm_compute. reflexivity.
Defined.

(** * Further properties of the routes and of the seeder *)

(** ** The read paths *)

Lemma try_except_preserves {A} (R : relation World) `{!Transitive R}
    (body : M A) (handler : exn → M A) (w : World) :
  R w (snd (body w)) → (∀ e w1, R w1 (snd (handler e w1))) →
  R w (snd (try_except body handler w)).
Proof.
  intros Hb Hh. unfold try_except. destruct (body w) as [[a|e] w1]; simpl in *; [done|].
  etrans; [exact Hb | apply Hh].
Qed.

Lemma same_store_nothing_seeded (w w' : World) : same_store w w' → nothing_seeded w w'.
Proof. intros (Hd & Hc & _). unfold nothing_seeded, db. by rewrite Hd, Hc. Qed.

Lemma inserts_snoc_get (cs : list Call) (c : string) (f : option doc) (l : option Z) :
  inserts (cs ++ [CallGetDocuments c f l]) = inserts cs.
Proof. rewrite inserts_app. simpl. apply app_nil_r. Qed.

Lemma get_documents_nothing_seeded (c : string) (f : option doc) (l : option Z)
    (w : World) :
  nothing_seeded w (snd (get_documents c f l w)).
Proof.
  destruct w as [dbs t0 clk k cs].
  unfold nothing_seeded, get_documents, store_op, find, db. run.
  destruct dbs as [|[s|]]; simpl; [by rewrite inserts_snoc_get| |by rewrite inserts_snoc_get].
  destruct (faults s (ops s)); simpl; by rewrite inserts_snoc_get.
Qed.

(** X1. The two read handlers never raise, and they never write: whatever
    the state of the store, the answer is a list of records, no document is
    handed to [create_document] and every collection is left as it was. *)
Theorem read_handlers_never_raise_nor_write (py_str : value → string) (limit : Z)
    (w : World) :
  (∃ items, fst (get_metrics w) = Ok items)
  ∧ nothing_seeded w (snd (get_metrics w))
  ∧ (∃ items, fst (get_reels py_str limit w) = Ok items)
  ∧ nothing_seeded w (snd (get_reels py_str limit w)).
Proof.
  split; [|split; [|split]].
  - unfold get_metrics, try_except.
    destruct ((docs <- get_documents COL_METRIC None None;; metrics_loop docs []) w)
      as [[items|e] w1]; [eauto|].
    rewrite metrics_fallback_eq. eauto.
  - unfold get_metrics. apply (try_except_preserves nothing_seeded).
    + apply (bind_preserves nothing_seeded); [apply get_documents_nothing_seeded|].
      intros docs w1. apply same_store_nothing_seeded, metrics_loop_same_store.
    + intros _ w1. by rewrite metrics_fallback_eq.
  - destruct (get_reels_spec py_str limit w) as (items & Hok & _). eauto.
  - unfold get_reels. apply (try_except_preserves nothing_seeded).
    + apply (bind_preserves nothing_seeded); [apply get_documents_nothing_seeded|].
      intros docs w1. apply same_store_nothing_seeded, reels_loop_spec.
    + intros _ w1. rewrite reels_fallback_eq.
      apply same_store_nothing_seeded, same_store_after_reads.
Qed.

(** X2. With [db] unconfigured (the import failed or the handle is [None])
    [get_metrics] answers with the one seed metric, stamped with the time the
    module was loaded, and [get_reels] with the two seed reels sliced at the
    limit and stamped with the clock readings of the call; at limit 1 that is
    the first seed reel alone. *)
Theorem unconfigured_reads_serve_fallback (py_str : value → string) (limit : Z)
    (w : World) :
  db w = None →
  fst (get_metrics w) = Ok [fallback_metric (module_loaded_at w)]
  ∧ fst (get_reels py_str limit w)
    = Ok (slice_to limit [fallback_reel_1 (clock w (reads w));
                          fallback_reel_2 (clock w (S (reads w)))])
  ∧ fst (get_reels py_str 1 w) = Ok [fallback_reel_1 (clock w (reads w))].
Proof.
  intros Hdb. destruct w as [dbs t0 clk k cs]. unfold db in Hdb. simpl in Hdb.
  assert (Hr : ∀ l, fst (get_reels py_str l (mkWorld dbs t0 clk k cs))
               = Ok (slice_to l [fallback_reel_1 (clk k); fallback_reel_2 (clk (S k))])).
  { intros l. unfold get_reels, try_except, bind, get_documents, call, raise.
    destruct dbs as [|[s|]]; simplify_eq; simpl; by rewrite reels_fallback_eq. }
  split; [|split; [apply Hr | apply (Hr 1)]].
  unfold get_metrics, try_except, bind, get_documents, call, raise.
  destruct dbs as [|[s|]]; simplify_eq; simpl; by rewrite metrics_fallback_eq.
Qed.

Lemma unconfigured_reads_serve_fallback_witness :
  db (world ImportFailed) = None
  ∧ fst (get_metrics (world ImportFailed)) = Ok [fallback_metric 1699999999000000]
  ∧ fst (get_reels id_str 5 (world ImportFailed))
    = Ok (slice_to 5 [fallback_reel_1 1700000000000000;
                      fallback_reel_2 1700000000000017])
  ∧ fst (get_reels id_str 1 (world ImportFailed))
    = Ok [fallback_reel_1 1700000000000000].
Proof.
  split; [reflexivity|].
  apply (unconfigured_reads_serve_fallback id_str 5 (world ImportFailed)).
  reflexivity.
Defined.

(** X3. An empty collection is not a failure: when the store is connected
    and the read succeeds on an empty collection, the answer is the empty
    list, not the Fallback Catalog. *)
Theorem empty_collection_is_not_a_failure (py_str : value → string) (limit : Z)
    (w : World) (s : Store) :
  db w = Some s → faults s (ops s) = None →
  (collection s COL_METRIC = [] → fst (get_metrics w) = Ok [])
  ∧ (collection s COL_REEL = [] → fst (get_reels py_str limit w) = Ok []).
Proof.
  intros Hdb Hf. destruct w as [dbs t0 clk k cs]. unfold db in Hdb. simpl in Hdb.
  destruct dbs as [|[s0|]]; simplify_eq.
  split; intros Hc.
  - unfold get_metrics, get_documents, try_except, bind, store_op, find, call, db.
    simpl. rewrite Hf. simpl. rewrite matching_empty.
    change (collection (store_tick s) COL_METRIC) with (collection s COL_METRIC).
    by rewrite Hc.
  - unfold get_reels, get_documents, try_except, bind, store_op, find, call, db.
    simpl. rewrite Hf. simpl. rewrite matching_empty.
    change (collection (store_tick s) COL_REEL) with (collection s COL_REEL).
    rewrite Hc, take_nil. by destruct (Z.min limit 50 <=? 0).
Qed.

Lemma empty_collection_is_not_a_failure_witness :
  db (connected (empty_store no_faults)) = Some (empty_store no_faults)
  ∧ faults (empty_store no_faults) (ops (empty_store no_faults)) = None
  ∧ collection (empty_store no_faults) COL_METRIC = []
  ∧ collection (empty_store no_faults) COL_REEL = []
  ∧ fst (get_metrics (connected (empty_store no_faults))) = Ok []
  ∧ fst (get_reels id_str 20 (connected (empty_store no_faults))) = Ok [].
Proof.
  split; [reflexivity|]. split; [reflexivity|].
  split; [reflexivity|]. split; [reflexivity|].
  destruct (empty_collection_is_not_a_failure id_str 20
              (connected (empty_store no_faults)) (empty_store no_faults)
              eq_refl eq_refl) as [Hm Hr].
  split; [apply Hm | apply Hr]; reflexivity.
Defined.








Lemma reels_loop_raises (py_str : value → string) (docs : list doc) (d : doc) :
  d ∈ docs →
  (∀ w, ∃ e, fst (Reel.init_with_id (reel_id py_str d) (delete "_id" d) w) = Raise e) →
  ∀ (items : list Reel.t) (w : World),
    ∃ e, fst (reels_loop py_str docs items w) = Raise e.
Proof.
  intros Hin Hrej. induction docs as [|d' docs IH]; intros items w.
  - by apply elem_of_nil in Hin.
  - simpl. unfold bind.
    destruct (Reel.init_with_id (reel_id py_str d') (delete "_id" d') w)
      as [[r|e] w1] eqn:E; simpl; [|eauto].
    apply elem_of_cons in Hin as [-> | Hin]; [|by apply IH].
    destruct (Hrej w) as [e He]. rewrite E in He. discriminate.
Qed.

(** X6. A stored reel that has a field named [id] makes the call of line 157
    pass the keyword [id] twice; the [TypeError] is caught like any other
    exception, so the whole answer, not only that record, is replaced by the
    Fallback Catalog. *)
Theorem stored_id_field_falls_back (py_str : value → string) (limit : Z) (w : World)
    (docs : list doc) (d : doc) :
  fst (get_documents COL_REEL (Some ∅) (Some (Z.min limit 50)) w) = Ok docs →
  d ∈ docs → is_Some (d !! "id") →
  (∀ w', fst (Reel.init_with_id (reel_id py_str d) (delete "_id" d) w')
         = Raise (TypeError "got multiple values for keyword argument 'id'"))
  ∧ ∃ t1 t2, fst (get_reels py_str limit w)
             = Ok (slice_to limit [fallback_reel_1 t1; fallback_reel_2 t2]).
Proof.
  intros Hget Hin [v Hv].
  assert (Hraise : ∀ w', fst (Reel.init_with_id (reel_id py_str d) (delete "_id" d) w')
                         = Raise (TypeError "got multiple values for keyword argument 'id'")).
  { intros w'. unfold Reel.init_with_id. by rewrite lookup_delete_ne, Hv. }
  split; [exact Hraise|].
  unfold get_reels, try_except, bind.
  destruct (get_documents COL_REEL (Some ∅) (Some (Z.min limit 50)) w)
    as [[docs'|e] w1]; simpl in *; [|discriminate].
  injection Hget as ->.
  destruct (reels_loop_raises py_str docs d Hin (λ w', ex_intro _ _ (Hraise w')) [] w1)
    as [e He].
  destruct (reels_loop py_str docs [] w1) as [[items|e'] w2]; simpl in *;
    [discriminate|].
  rewrite reels_fallback_eq. simpl. eauto.
Qed.

Lemma stored_id_field_falls_back_witness :
  let w := connected (store_with COL_REEL [reel_with_id_field]) in
  (∀ w', fst (Reel.init_with_id (reel_id id_str reel_with_id_field)
                (delete "_id" reel_with_id_field) w')
         = Raise (TypeError "got multiple values for keyword argument 'id'"))
  ∧ ∃ t1 t2, fst (get_reels id_str 20 w)
             = Ok (slice_to 20 [fallback_reel_1 t1; fallback_reel_2 t2]).
Proof.
  intros w.
  apply (stored_id_field_falls_back id_str 20 w [reel_with_id_field] reel_with_id_field).
  - reflexivity.
  - apply list_elem_of_singleton. reflexivity.
  - exists (VStr "legacy-17"). reflexivity.
Defined.

(** ** Startup and seeding *)

(** X7. With [db] unconfigured startup is a no-op: [ensure_indexes],
    [seed_data] and [on_startup] return without raising, without a call to
    the store or to a database helper, and without reading the clock. *)
Theorem startup_unconfigured_is_noop (w : World) :
  db w = None →
  ensure_indexes w = (Ok tt, w) ∧ seed_data w = (Ok tt, w)
  ∧ on_startup w = (Ok tt, w).
Proof.
  intros Hdb.
  assert (He : ensure_indexes w = (Ok tt, w))
    by (unfold ensure_indexes, bind, get_db; by rewrite Hdb).
  assert (Hs : seed_data w = (Ok tt, w))
    by (unfold seed_data, bind, get_db; by rewrite Hdb).
  split; [done|]. split; [done|].
  unfold on_startup, try_except, bind. by rewrite He, Hs.
Qed.

Lemma startup_unconfigured_is_noop_witness :
  db (world ImportFailed) = None
  ∧ ensure_indexes (world ImportFailed) = (Ok tt, world ImportFailed)
  ∧ seed_data (world ImportFailed) = (Ok tt, world ImportFailed)
  ∧ on_startup (world ImportFailed) = (Ok tt, world ImportFailed).
Proof.
  split; [reflexivity|].
  apply (startup_unconfigured_is_noop (world ImportFailed)). reflexivity.
Defined.

Lemma collection_insert_one_other (c c' : string) (d : doc) (s : Store) :
  c' ≠ c → collection (insert_one c d s).2 c' = collection s c'.
Proof. intros Hne. unfold collection, insert_one. simpl. by rewrite lookup_insert_ne. Qed.

Lemma stripped_seed (d : doc) (v : value) :
  d !! "_id" = None → delete "_id" (<["_id" := v]> d) = d.
Proof. intros Hd. by rewrite delete_insert_eq, delete_id. Qed.

Lemma create_document_healthy (c : string) (d : doc) (w : World) (s : Store) :
  db w = Some s → healthy s →
  create_document c d w
  = (Ok (fresh_oid (next_oid s)),
     set_store (insert_one c d (store_tick s)).2 (log_call (CallCreateDocument c d) w)).
Proof.
  intros Hdb Hh. destruct w as [dbs t0 clk k cs]. unfold db in Hdb. simpl in Hdb.
  destruct dbs as [|[s0|]]; simplify_eq.
  unfold create_document, bind, call, store_op, db. simpl. by rewrite (Hh (ops s)).
Qed.

(** Inserting seed documents into a healthy store appends them to their
    collection and touches no other collection. *)
Lemma seed_loop_healthy (c : string) (seeds : list doc) :
  ∀ (w : World) (s : Store),
    db w = Some s → healthy s →
    fst (for_each seeds (λ m, create_document c m ;;; ret tt) w) = Ok tt
    ∧ module_loaded_at (snd (for_each seeds (λ m, create_document c m ;;; ret tt) w))
      = module_loaded_at w
    ∧ ∃ s', db (snd (for_each seeds (λ m, create_document c m ;;; ret tt) w)) = Some s'
        ∧ healthy s'
        ∧ (∀ c', c' ≠ c → collection s' c' = collection s c')
        ∧ stripped s' c = stripped s c ++ (delete "_id" <$> seeds).
Proof.
  induction seeds as [|d seeds IH]; intros w s Hdb Hh.
  - simpl. split; [done|]. split; [done|]. exists s. split; [done|]. split; [done|].
    split; [done|]. by rewrite app_nil_r.
  - set (w1 := set_store (insert_one c d (store_tick s)).2
                 (log_call (CallCreateDocument c d) w)).
    assert (Heq : for_each (d :: seeds) (λ m, create_document c m ;;; ret tt) w
                  = for_each seeds (λ m, create_document c m ;;; ret tt) w1).
    { cbn [for_each]. unfold bind.
      by rewrite (create_document_healthy c d w s Hdb Hh). }
    rewrite Heq.
    destruct (IH w1 (insert_one c d (store_tick s)).2 eq_refl Hh)
      as (Hok & Ht & s' & Hdb' & Hh' & Hother & Hc).
    split; [exact Hok|]. split; [exact Ht|]. exists s'.
    split; [exact Hdb'|]. split; [exact Hh'|]. split.
    + intros c' Hne. rewrite (Hother c' Hne).
      by rewrite (collection_insert_one_other c c' d (store_tick s)).
    + rewrite Hc. unfold stripped at 1.
      rewrite (collection_insert_one c d (store_tick s)), fmap_app. simpl.
      rewrite delete_insert_eq, <- app_assoc. reflexivity.
Qed.

Lemma count_documents_healthy (c : string) (w : World) (s : Store) :
  db w = Some s → healthy s →
  count_documents c ∅ w
  = (Ok (Z.of_nat (length (collection s c))),
     set_store (store_tick s) (log_call (CallCountDocuments c ∅) w)).
Proof.
  intros Hdb Hh.
  destruct (count_documents_spec c w s Hdb) as [[msg Hr] | Hr]; [|exact Hr].
  destruct w as [dbs t0 clk k cs]. unfold db in Hdb. simpl in Hdb.
  destruct dbs as [|[s0|]]; simplify_eq.
  unfold count_documents, bind, call, store_op, db in Hr. simpl in Hr.
  rewrite (Hh (ops s)) in Hr. discriminate.
Qed.

Lemma seeds_have_no_id (t : datetime) :
  delete "_id" <$> SEED_METRICS t = SEED_METRICS t
  ∧ delete "_id" <$> SEED_REELS = SEED_REELS.
Proof. split; reflexivity. Qed.

Lemma seed_metric_collection_healthy (w : World) (s : Store) :
  db w = Some s → healthy s →
  fst (seed_metric_collection w) = Ok tt
  ∧ module_loaded_at (snd (seed_metric_collection w)) = module_loaded_at w
  ∧ ∃ s', db (snd (seed_metric_collection w)) = Some s' ∧ healthy s'
      ∧ (∀ c', c' ≠ COL_METRIC → collection s' c' = collection s c')
      ∧ (collection s COL_METRIC = [] →
         stripped s' COL_METRIC = SEED_METRICS (module_loaded_at w))
      ∧ (collection s COL_METRIC ≠ [] →
         collection s' COL_METRIC = collection s COL_METRIC).
Proof.
  intros Hdb Hh. unfold seed_metric_collection, bind.
  rewrite (count_documents_healthy COL_METRIC w s Hdb Hh).
  set (w1 := set_store (store_tick s) (log_call (CallCountDocuments COL_METRIC ∅) w)).
  destruct (collection s COL_METRIC) as [|d0 l] eqn:Hc.
  - cbn [length Z.of_nat Z.eqb seed_metrics].
    destruct (seed_loop_healthy COL_METRIC (SEED_METRICS (module_loaded_at w1))
                w1 (store_tick s) eq_refl Hh)
      as (Hok & Ht & s' & Hdb' & Hh' & Hother & Hs).
    split; [exact Hok|]. split; [exact Ht|]. exists s'.
    split; [exact Hdb'|]. split; [exact Hh'|]. split; [exact Hother|].
    split; [|done]. intros _. rewrite Hs. unfold stripped.
    change (collection (store_tick s) COL_METRIC) with (collection s COL_METRIC).
    rewrite Hc. simpl. apply (seeds_have_no_id (module_loaded_at w)).
  - rewrite (count_nonempty (d0 :: l)) by done. unfold ret. cbn [fst snd].
    split; [done|]. split; [done|]. exists (store_tick s).
    split; [done|]. split; [done|]. split; [done|]. split; [done|].
    intros _. exact Hc.
Qed.

Lemma seed_reel_collection_healthy (w : World) (s : Store) :
  db w = Some s → healthy s →
  fst (seed_reel_collection w) = Ok tt
  ∧ module_loaded_at (snd (seed_reel_collection w)) = module_loaded_at w
  ∧ ∃ s', db (snd (seed_reel_collection w)) = Some s' ∧ healthy s'
      ∧ (∀ c', c' ≠ COL_REEL → collection s' c' = collection s c')
      ∧ (collection s COL_REEL = [] → stripped s' COL_REEL = SEED_REELS)
      ∧ (collection s COL_REEL ≠ [] →
         collection s' COL_REEL = collection s COL_REEL).
Proof.
  intros Hdb Hh. unfold seed_reel_collection, bind.
  rewrite (count_documents_healthy COL_REEL w s Hdb Hh).
  set (w1 := set_store (store_tick s) (log_call (CallCountDocuments COL_REEL ∅) w)).
  destruct (collection s COL_REEL) as [|d0 l] eqn:Hc.
  - cbn [length Z.of_nat Z.eqb].
    destruct (seed_loop_healthy COL_REEL SEED_REELS w1 (store_tick s) eq_refl Hh)
      as (Hok & Ht & s' & Hdb' & Hh' & Hother & Hs).
    split; [exact Hok|]. split; [exact Ht|]. exists s'.
    split; [exact Hdb'|]. split; [exact Hh'|]. split; [exact Hother|].
    split; [|done]. intros _. rewrite Hs. unfold stripped.
    change (collection (store_tick s) COL_REEL) with (collection s COL_REEL).
    rewrite Hc. simpl. apply (seeds_have_no_id 0).
  - rewrite (count_nonempty (d0 :: l)) by done. unfold ret. cbn [fst snd].
    split; [done|]. split; [done|]. exists (store_tick s).
    split; [done|]. split; [done|]. split; [done|]. split; [done|].
    intros _. exact Hc.
Qed.

Lemma seed_data_healthy (w : World) (s : Store) :
  db w = Some s → healthy s →
  fst (seed_data w) = Ok tt
  ∧ module_loaded_at (snd (seed_data w)) = module_loaded_at w
  ∧ ∃ s', db (snd (seed_data w)) = Some s' ∧ healthy s'
      ∧ (collection s COL_METRIC = [] →
         stripped s' COL_METRIC = SEED_METRICS (module_loaded_at w))
      ∧ (collection s COL_METRIC ≠ [] →
         collection s' COL_METRIC = collection s COL_METRIC)
      ∧ (collection s COL_REEL = [] → stripped s' COL_REEL = SEED_REELS)
      ∧ (collection s COL_REEL ≠ [] → collection s' COL_REEL = collection s COL_REEL)
      ∧ (∀ c, c ≠ COL_METRIC → c ≠ COL_REEL → collection s' c = collection s c).
Proof.
  intros Hdb Hh. unfold seed_data, bind, get_db. rewrite Hdb.
  destruct (seed_metric_collection_healthy w s Hdb Hh)
    as (Hok1 & Ht1 & s1 & Hdb1 & Hh1 & Ho1 & He1 & Hn1).
  destruct (seed_metric_collection w) as [[[]|e] w1]; simpl in *; [|discriminate].
  destruct (seed_reel_collection_healthy w1 s1 Hdb1 Hh1)
    as (Hok2 & Ht2 & s2 & Hdb2 & Hh2 & Ho2 & He2 & Hn2).
  assert (Hm : collection s2 COL_METRIC = collection s1 COL_METRIC) by by apply Ho2.
  assert (Hr : collection s1 COL_REEL = collection s COL_REEL) by by apply Ho1.
  split; [done|]. split; [congruence|]. exists s2.
  split; [done|]. split; [done|]. split; [|split; [|split; [|split]]].
  - intros Hc. unfold stripped. rewrite Hm. by apply He1.
  - intros Hc. rewrite Hm. by apply Hn1.
  - intros Hc. rewrite Ht1 in *. apply He2. by rewrite Hr.
  - intros Hc. rewrite <- Hr. apply Hn2. by rewrite Hr.
  - intros c Hcm Hcr. rewrite (Ho2 c Hcr). by apply Ho1.
Qed.

(** X8. On a store whose operations do not fail, [seed_data] returns
    normally and seeds exactly what is empty: an empty Metric (Reel)
    collection ends up holding the seed metrics (seed reels), in order, each
    with an identifier added by the store; a non-empty one is left as it was;
    and no other collection changes. *)
Theorem seed_data_seeds_what_is_empty (w : World) (s : Store) :
  db w = Some s → healthy s →
  fst (seed_data w) = Ok tt
  ∧ ∃ s', db (snd (seed_data w)) = Some s'
      ∧ (collection s COL_METRIC = [] →
         stripped s' COL_METRIC = SEED_METRICS (module_loaded_at w))
      ∧ (collection s COL_METRIC ≠ [] →
         collection s' COL_METRIC = collection s COL_METRIC)
      ∧ (collection s COL_REEL = [] → stripped s' COL_REEL = SEED_REELS)
      ∧ (collection s COL_REEL ≠ [] → collection s' COL_REEL = collection s COL_REEL)
      ∧ (∀ c, c ≠ COL_METRIC → c ≠ COL_REEL → collection s' c = collection s c).
Proof.
  intros Hdb Hh.
  destruct (seed_data_healthy w s Hdb Hh) as (Hok & _ & s' & Hdb' & _ & H).
  split; [exact Hok|]. exists s'. by split.
Qed.

Lemma seed_data_seeds_what_is_empty_witness :
  let s := store_with COL_METRIC [bad_metric] in
  fst (seed_data (connected s)) = Ok tt
  ∧ ∃ s', db (snd (seed_data (connected s))) = Some s'
      ∧ (collection s COL_METRIC = [] →
         stripped s' COL_METRIC = SEED_METRICS (module_loaded_at (connected s)))
      ∧ (collection s COL_METRIC ≠ [] →
         collection s' COL_METRIC = collection s COL_METRIC)
      ∧ (collection s COL_REEL = [] → stripped s' COL_REEL = SEED_REELS)
      ∧ (collection s COL_REEL ≠ [] → collection s' COL_REEL = collection s COL_REEL)
      ∧ (∀ c, c ≠ COL_METRIC → c ≠ COL_REEL → collection s' c = collection s c).
Proof.
  intros s. apply (seed_data_seeds_what_is_empty (connected s) s); [reflexivity|].
  intros k. reflexivity.
Defined.

(** A half-seeded store: the metric that is there stays, the two seed reels
    are added. *)
Example seed_data_half_seeded :
  let s := store_of (snd (seed_data (connected (store_with COL_METRIC [bad_metric])))) in
  length (collection s COL_METRIC) = 1%nat
  ∧ length (collection s COL_REEL) = 2%nat
  ∧ length (inserts (calls (snd (seed_data
                                   (connected (store_with COL_METRIC [bad_metric]))))))
    = 2%nat.
Proof. repeat split; vm_compute; reflexivity. Qed.








(** ** The contact schema and POST /contact *)

(** X10. Fields that [ContactMessage] does not declare are ignored: adding
    any such field to a request body changes neither the validated payload
    nor anything [POST /contact] does. *)
Theorem contact_extra_fields_ignored (k : string) (v : value) (body : doc) (w : World) :
  k ∉ contact_fields →
  ContactMessage.init (<[k := v]> body) = ContactMessage.init body
  ∧ post_contact (<[k := v]> body) w = post_contact body w.
Proof.
  intros Hk. unfold contact_fields in Hk.
  repeat (apply not_elem_of_cons in Hk as [? Hk]).
  assert (He : ContactMessage.init (<[k := v]> body) = ContactMessage.init body).
  { unfold ContactMessage.init, required, with_default.
    by rewrite !lookup_insert_ne by done. }
  split; [exact He|]. unfold post_contact. by rewrite He.
Qed.

Lemma contact_extra_fields_ignored_witness :
  ContactMessage.init (<["is_admin" := VInt 1]> (ContactMessage.model_dump alice))
  = ContactMessage.init (ContactMessage.model_dump alice)
  ∧ post_contact (<["is_admin" := VInt 1]> (ContactMessage.model_dump alice))
      (world (Imported None))
    = post_contact (ContactMessage.model_dump alice) (world (Imported None)).
Proof.
  apply (contact_extra_fields_ignored "is_admin" (VInt 1)).
  unfold contact_fields. intros H.
  repeat (apply elem_of_cons in H as [H|H]; [discriminate|]).
  by apply elem_of_nil in H.
Defined.








(** ** The schemas *)


Lemma as_int_Some (v : value) (z : Z) : as_int v = Some z → v = VInt z.
Proof. destruct v; simpl; intros; simplify_eq. done. Qed.



Lemma with_default_absent {A} (p : value → option A) (dflt : A) (kw : doc) (k : string) :
  kw !! k = None → with_default p dflt kw k = Some dflt.
Proof. unfold with_default. by intros ->. Qed.






(** ** The diagnostic routes *)


(** X15. [GET /test] never raises and never changes a document. Its
    [database_url] and [database_name] report only whether the environment
    variable is set to a non-empty string (the name of [db] assigned on line
    197 is always overwritten on line 208); it lists at most 10 collections;
    and its [connection_status] is Connected exactly when [db] is not
    [None]. *)
Theorem test_database_reports (getenv : string → option string)
    (db_name : option string) (import_error : exn) (w : World) :
  ∃ r, fst (test_database getenv db_name import_error w) = Ok r
    ∧ TestResponse.backend r = "✅ Running"
    ∧ TestResponse.database_url r
      = (if env_set getenv "DATABASE_URL" then "✅ Set" else "❌ Not Set")
    ∧ TestResponse.database_name r
      = (if env_set getenv "DATABASE_NAME" then "✅ Set" else "❌ Not Set")
    ∧ (length (TestResponse.collections r) ≤ 10)%nat
    ∧ (TestResponse.connection_status r = "Connected" ↔ is_Some (db w))
    ∧ nothing_seeded w (snd (test_database getenv db_name import_error w)).
Proof.
  destruct w as [dbs t0 clk k cs].
  unfold test_database, try_except, bind, import_db, list_collection_names,
    store_op, db, nothing_seeded.
  destruct dbs as [|[s|]]; simpl; [| destruct (faults s (ops s)); simpl |];
    (eexists; split; [reflexivity|]); simpl; rewrite ?length_take;
    repeat split; try done; try lia; try (by intros [? ?]); eauto.
Qed.



(** X17. [GET /health] and [GET /test] agree: [health] reports the database
    as connected exactly when [test_database] reports the connection status
    Connected, which is exactly when [db] is not [None]; and [health] changes
    nothing. *)
Theorem health_agrees_with_test (getenv : string → option string)
    (db_name : option string) (import_error : exn) (w : World) :
  ∃ h r, health w = (Ok h, w)
    ∧ fst (test_database getenv db_name import_error w) = Ok r
    ∧ HealthResponse.backend h = "ok"
    ∧ (HealthResponse.database h = "connected"
       ∨ HealthResponse.database h = "not_configured")
    ∧ (HealthResponse.database h = "connected" ↔ is_Some (db w))
    ∧ (HealthResponse.database h = "connected"
       ↔ TestResponse.connection_status r = "Connected").
Proof.
  destruct (test_database_reports getenv db_name import_error w)
    as (r & Hr & _ & _ & _ & _ & Hconn & _).
  unfold health, bind, get_db, ret. destruct (db w) as [s|] eqn:Hdb.
  - eexists _, r. split; [reflexivity|]. split; [done|]. simpl.
    split; [done|]. split; [by left|]. split; [by split; eauto|].
    split; [intros _; apply Hconn; eauto | done].
  - eexists _, r. split; [reflexivity|]. split; [done|]. simpl.
    split; [done|]. split; [by right|]. split; [split; [done | by intros [? ?]]|].
    split; [done|]. intros H. apply Hconn in H as [? ?]. done.
Qed.

(** X18. A contact submission that the store accepts: when [db] is
    configured and the insert does not fail, [submit_contact] answers ok with
    the identifier that the store assigned, the contact collection grows by
    exactly one document, every other collection is left as it was, and the
    one call made is that [create_document]. *)
Theorem submit_contact_stores_one (payload : ContactMessage.t) (w : World) (s : Store) :
  db w = Some s → faults s (ops s) = None →
  ∃ w' s',
    submit_contact payload w
    = (Ok (ContactResponse.mk "ok" (Some (fresh_oid (next_oid s)))), w')
    ∧ db w' = Some s'
    ∧ length (collection s' COL_CONTACT) = S (length (collection s COL_CONTACT))
    ∧ (∀ c, c ≠ COL_CONTACT → collection s' c = collection s c)
    ∧ calls w'
      = calls w ++ [CallCreateDocument COL_CONTACT
                      (contact_record payload (clock w (reads w)))].
Proof.
  intros Hdb Hf. destruct w as [dbs t0 clk k cs]. unfold db in Hdb. simpl in Hdb.
  destruct dbs as [|[s0|]]; simplify_eq.
  unfold submit_contact, create_document, store_op, db. run. rewrite Hf. simpl.
  eexists _, _. split; [reflexivity|]. split; [reflexivity|]. split; [|split].
  - unfold collection. simpl. rewrite lookup_insert_eq. simpl.
    rewrite length_app. simpl. lia.
  - intros c Hc. unfold collection. simpl. by rewrite lookup_insert_ne.
  - reflexivity.
Qed.

Lemma submit_contact_stores_one_witness :
  let w := connected (empty_store no_faults) in
  ∃ w' s',
    submit_contact alice w = (Ok (ContactResponse.mk "ok" (Some "0")), w')
    ∧ db w' = Some s'
    ∧ length (collection s' COL_CONTACT) = 1%nat
    ∧ (∀ c, c ≠ COL_CONTACT → collection s' c = collection (empty_store no_faults) c)
    ∧ calls w'
      = calls w ++ [CallCreateDocument COL_CONTACT
                      (contact_record alice (clock w (reads w)))].
Proof.
  intros w.
  apply (submit_contact_stores_one alice w (empty_store no_faults)); reflexivity.
Defined.
